(** * News scraper: polling threads, retrying fetch, deduplicating aggregator

    A shallow embedding of [programminglanguage2023_refactored.py].

    - Python [str] is [string], Python [int] is [Z], a Python [set] of
      tuples is a [gset], a [Queue] is the list of its pending items
      (oldest first).
    - A Python call that may raise returns a [res]; only instances of
      [Exception] are modelled as values, the [KeyboardInterrupt] that
      the aggregator handles is an action of the schedule.
    - Everything observable (network requests, sleeps, log records, queue
      puts, printed items) is recorded as an [event]; a function returns
      the events it produced, oldest first.
    - The threads are small-step machines over the shared scraper
      objects; a schedule interleaves them. *)

From stdpp Require Import base strings list gmap sets.
From Stdlib Require Import ZArith Lia.

Local Open Scope Z_scope.

(** ** Exceptions and results *)

(** The exception classes the file distinguishes.  [Timeout] stands for
    [requests.exceptions.Timeout], [RequestException] for every other
    subclass of [requests.exceptions.RequestException] (connection errors,
    DNS failures, [HTTPError] raised by [raise_for_status]), and
    [OtherException] for an [Exception] outside these. *)
Inductive exn :=
| ValueError (msg : string)
| Timeout
| RequestException (msg : string)
| OtherException (msg : string).

Inductive res (A : Type) :=
| Ok (a : A)
| Raise (e : exn).
Arguments Ok {A} a.
Arguments Raise {A} e.

(** Python truthiness of a [str]: every string but the empty one. *)
Definition truthy (s : string) : bool :=
  match s with
  | EmptyString => false
  | String _ _ => true
  end.

(** [range(n)] for an [int] [n]: empty when [n <= 0]. *)
Definition range (n : Z) : list Z := Z.of_nat <$> seq 0 (Z.to_nat n).

(** ** NewsItem *)

Record NewsItem := mkNewsItem {
  name : string;
  title : string;
  desc : string;
  timestamp : string
}.

(** [NewsItem.__init__]: [if not all([name, title, desc, timestamp]): raise]. *)
Definition NewsItem_init (name title desc timestamp : string) : res NewsItem :=
  if negb (forallb truthy [name; title; desc; timestamp])
  then Raise (ValueError "All fields must be non-empty")
  else Ok (mkNewsItem name title desc timestamp).

(** ** Events *)

Inductive level := INFO | WARNING | ERROR.

(** The log records of the file, one constructor per [logger] call. *)
Inductive log_record :=
| TimeoutAttempt (attempt : Z) (url : string)
| RequestError (url : string) (e : exn)
| ErrorParsingItem (e : exn)
| ErrorParsingContent (site : string) (e : exn)
| ErrorScraping (site : string) (e : exn)
| ThreadAlreadyRunning
| StartedThread (site : string)
| ThreadNotGraceful
| StoppedThread (site : string)
| ReceivedInterrupt.

Inductive event :=
| EvRequest (url : string) (timeout : Z)     (* session.get(url, timeout=...) *)
| EvSleep (seconds : Z)                      (* time.sleep(seconds) *)
| EvLog (lvl : level) (r : log_record)
| EvPut (site : string) (item : NewsItem)    (* news_queue.put(item) *)
| EvGet (item : NewsItem)                    (* news_queue.get_nowait() *)
| EvPrint (item : NewsItem)                  (* the five print calls *)
| EvJoin (site : string) (timeout : Z)       (* thread.join(timeout=...) *)
| EvClose (site : string).                   (* http_client.close() *)

(** Observations on a trace. *)
Definition requests_of (evs : list event) : list string :=
  omap (fun e => match e with EvRequest u _ => Some u | _ => None end) evs.

Definition sleeps_of (evs : list event) : list Z :=
  omap (fun e => match e with EvSleep d => Some d | _ => None end) evs.

Definition puts_of (evs : list event) : list NewsItem :=
  omap (fun e => match e with EvPut _ i => Some i | _ => None end) evs.

Definition gets_of (evs : list event) : list NewsItem :=
  omap (fun e => match e with EvGet i => Some i | _ => None end) evs.

Definition prints_of (evs : list event) : list NewsItem :=
  omap (fun e => match e with EvPrint i => Some i | _ => None end) evs.

Definition sleep_time (evs : list event) : Z := foldr Z.add 0 (sleeps_of evs).

(** ** HTTPClient *)

(** A [requests.Session] seen from the client: [respond n url] is what the
    body of the [try] in [fetch] (the [get], [raise_for_status] and the
    read of [response.text]) does on the [n]-th request sent through the
    session, [sent] counts the requests sent so far. *)
Record Session := mkSession {
  respond : nat -> string -> res string;
  sent : nat;
  closed : bool
}.

Record HTTPClient := mkHTTPClient {
  timeout : Z;
  max_retries : Z;
  session : Session
}.

(** [HTTPClient.__init__(timeout=30, max_retries=3)] over a network. *)
Definition HTTPClient_init (network : nat -> string -> res string)
    (timeout max_retries : Z) : HTTPClient :=
  mkHTTPClient timeout max_retries (mkSession network 0%nat false).

Definition HTTPClient_default (network : nat -> string -> res string) : HTTPClient :=
  HTTPClient_init network 30 3.

Definition session_get (s : Session) (url : string) : res string * Session :=
  (respond s (sent s) url, mkSession (respond s) (S (sent s)) (closed s)).

(** The [for attempt in range(self.max_retries)] loop of [fetch], over the
    attempts still to make.  A successful attempt returns, a timeout logs
    and falls through to the backoff, a request exception logs and breaks
    out of the loop, any other exception escapes. *)
Fixpoint fetch_loop (timeout max_retries : Z) (url : string)
    (attempts : list Z) (s : Session)
    : res (option string) * Session * list event :=
  match attempts with
  | [] => (Ok None, s, [])
  | attempt :: rest =>
      let '(r, s1) := session_get s url in
      match r with
      | Ok text => (Ok (Some text), s1, [EvRequest url timeout])
      | Raise Timeout =>
          let backoff :=
            if bool_decide (attempt < max_retries - 1)
            then [EvSleep (2 ^ attempt)] else [] in
          let '(r', s2, evs) := fetch_loop timeout max_retries url rest s1 in
          (r', s2,
           EvRequest url timeout
             :: EvLog WARNING (TimeoutAttempt (attempt + 1) url)
             :: backoff ++ evs)
      | Raise (RequestException m) =>
          (Ok None, s1,
           [EvRequest url timeout; EvLog ERROR (RequestError url (RequestException m))])
      | Raise e => (Raise e, s1, [EvRequest url timeout])
      end
  end.

(** [HTTPClient.fetch]. *)
Definition HTTPClient_fetch (c : HTTPClient) (url : string)
    : res (option string) * HTTPClient * list event :=
  let '(r, s', evs) :=
    fetch_loop (timeout c) (max_retries c) url (range (max_retries c)) (session c) in
  (r, mkHTTPClient (timeout c) (max_retries c) s', evs).

(** [HTTPClient.close]. *)
Definition HTTPClient_close (c : HTTPClient) : HTTPClient :=
  mkHTTPClient (timeout c) (max_retries c)
    (mkSession (respond (session c)) (sent (session c)) true).

(** ** A small monad for code with exceptions, local state and events

    [Py S A] is a Python block that runs over local variables of type [S],
    may raise, and emits events.  The state reached is kept when the block
    raises, as a handler sees the assignments made before the exception. *)

Definition Py (S A : Type) : Type := S -> res A * S * list event.

Definition ret {S A} (a : A) : Py S A := fun s => (Ok a, s, []).

Definition bind {S A B} (m : Py S A) (k : A -> Py S B) : Py S B :=
  fun s =>
    match m s with
    | (Ok a, s1, evs) => let '(r, s2, evs') := k a s1 in (r, s2, evs ++ evs')
    | (Raise e, s1, evs) => (Raise e, s1, evs)
    end.

Definition lift {S A} (r : res A) : Py S A := fun s => (r, s, []).

Definition emit {S} (ev : event) : Py S unit := fun s => (Ok tt, s, [ev]).

Definition get_state {S} : Py S S := fun s => (Ok s, s, []).

Definition modify {S} (f : S -> S) : Py S unit := fun s => (Ok tt, f s, []).

(** [try: body  except Exception as e: handler e]. *)
Definition try_except {S A} (body : Py S A) (handler : exn -> Py S A) : Py S A :=
  fun s =>
    match body s with
    | (Ok a, s1, evs) => (Ok a, s1, evs)
    | (Raise e, s1, evs) => let '(r, s2, evs') := handler e s1 in (r, s2, evs ++ evs')
    end.

(** [for x in l: body x]; an exception of the body leaves the loop. *)
Fixpoint for_each {S B} (l : list B) (body : B -> Py S unit) : Py S unit :=
  match l with
  | [] => ret tt
  | x :: rest => bind (body x) (fun _ => for_each rest body)
  end.

Declare Scope py_scope.
Delimit Scope py_scope with py.
Notation "x <- m ;; k" := (bind m (fun x => k))
  (at level 100, m at next level, right associativity) : py_scope.
Notation "m ;;; k" := (bind m (fun _ => k))
  (at level 100, right associativity) : py_scope.

(** ** Parsers *)

(** The part of BeautifulSoup the parsers use.  Every call may raise, so
    that a failure inside one candidate item can be expressed. *)
Class BS4 : Type := {
  Soup : Type;
  Tag : Type;
  (* BeautifulSoup(html_content, features="html.parser") *)
  BeautifulSoup : string -> res Soup;
  (* soup.head *)
  soup_head : Soup -> option Tag;
  (* soup.find_all(tag, class_=cls) *)
  soup_find_all : Soup -> string -> string -> res (list Tag);
  (* soup.select(selector) *)
  soup_select : Soup -> string -> res (list Tag);
  (* element.find(tag) and element.find(tag, class_=cls) *)
  tag_find : Tag -> string -> option string -> res (option Tag);
  (* element.string *)
  tag_string : Tag -> res (option string);
  (* element.get_text(strip=True) *)
  tag_get_text : Tag -> res string;
  (* element.get(attr, "") *)
  tag_get : Tag -> string -> res string
}.

Section Parsers.
Context {bs4 : BS4}.

(** [NewsParser.safe_get_text]: an element is [None] or a [Tag], and a
    [Tag] has [get_text]. *)
Definition safe_get_text (element : option Tag) : res string :=
  match element with
  | None => Ok ""
  | Some el => tag_get_text el
  end.

(** [NewsParser.safe_get_attr]. *)
Definition safe_get_attr (element : option Tag) (attr : string) : res string :=
  match element with
  | None => Ok ""
  | Some el => tag_get el attr
  end.

(** [_get_site_name], the same in the three parsers up to the default
    name: the bare [except] turns every failure into the default. *)
Definition get_site_name (default : string) (soup : Soup) : string :=
  match soup_head soup with
  | None => default
  | Some head =>
      match tag_find head "title" None with
      | Ok (Some _) =>
          match tag_find head "title" None with
          | Ok (Some t) =>
              match tag_string t with
              | Ok (Some s) => if truthy s then s else default
              | Ok None => default
              | Raise _ => default
              end
          | Ok None => default
          | Raise _ => default
          end
      | Ok None => default
      | Raise _ => default
      end
  end.

(** The three fields a parser reads from one candidate element. *)
Definition liputan6_fields (news : Tag) : res (string * string * string) :=
  match tag_find news "h1" (Some "headline--main__title") with
  | Raise e => Raise e
  | Ok title_elem =>
  match tag_find news "p" (Some "headline--main__short-desc") with
  | Raise e => Raise e
  | Ok desc_elem =>
  match tag_find news "time" (Some "timeago") with
  | Raise e => Raise e
  | Ok time_elem =>
  match safe_get_text title_elem with
  | Raise e => Raise e
  | Ok title =>
  match safe_get_text desc_elem with
  | Raise e => Raise e
  | Ok desc =>
  match safe_get_attr time_elem "datetime" with
  | Raise e => Raise e
  | Ok timestamp => Ok (title, desc, timestamp)
  end end end end end end.

Definition find_inside (parent : option Tag) (tag : string) (cls : option string)
    : res (option Tag) :=
  match parent with
  | None => Ok None
  | Some el => tag_find el tag cls
  end.

Definition bisnis_fields (news : Tag) : res (string * string * string) :=
  match tag_find news "div" (Some "channel") with
  | Raise e => Raise e
  | Ok channel_elem =>
  match find_inside channel_elem "div" (Some "date") with
  | Raise e => Raise e
  | Ok date_elem =>
  match tag_find news "h2" None with
  | Raise e => Raise e
  | Ok h2_elem =>
  match find_inside h2_elem "a" (Some "bigteks") with
  | Raise e => Raise e
  | Ok title_link =>
  match tag_find news "div" (Some "description") with
  | Raise e => Raise e
  | Ok desc_elem =>
  match safe_get_text date_elem with
  | Raise e => Raise e
  | Ok timestamp =>
  match safe_get_attr title_link "title" with
  | Raise e => Raise e
  | Ok title =>
  match safe_get_text desc_elem with
  | Raise e => Raise e
  | Ok desc => Ok (title, desc, timestamp)
  end end end end end end end end.

Definition abc_fields (news : Tag) : res (string * string * string) :=
  match tag_find news "a" (Some "GenericCard_link__EMXqX") with
  | Raise e => Raise e
  | Ok title_elem =>
  match tag_find news "div" (Some "Typography_base__sj2RP GenericCard_synopsis__mgnzs") with
  | Raise e => Raise e
  | Ok desc_elem =>
  match tag_find news "time"
          (Some "Typography_base__sj2RP DynamicTimestamp_printDate__OVPa2") with
  | Raise e => Raise e
  | Ok time_elem =>
  match safe_get_text title_elem with
  | Raise e => Raise e
  | Ok title =>
  match safe_get_text desc_elem with
  | Raise e => Raise e
  | Ok desc =>
  match safe_get_text time_elem with
  | Raise e => Raise e
  | Ok timestamp => Ok (title, desc, timestamp)
  end end end end end end.

(** The body of the inner [try] for one candidate: read the fields and
    append a [NewsItem] when the three of them are truthy.  The local
    state is the list [news_items]. *)
Definition parse_item (fields : Tag -> res (string * string * string))
    (website_name : string) (news : Tag) : Py (list NewsItem) unit :=
  (f <- lift (fields news) ;;
   let '(title, desc, timestamp) := f in
   if truthy title && truthy desc && truthy timestamp
   then item <- lift (NewsItem_init website_name title desc timestamp) ;;
        modify (fun news_items => news_items ++ [item])
   else ret tt)%py.

(** The CSS selector [div[data-id=...].GenericCard_card__oqpe3] of the ABC
    parser; the attribute value is quoted in the source. *)
Definition abc_selector : string :=
  let q := String (Ascii.ascii_of_nat 34) EmptyString in
  "div[data-id=" +:+ q +:+ "103068804" +:+ q +:+ "].GenericCard_card__oqpe3".

(** The [parse] method, the same in the three parsers up to the label of
    the error record, the default site name, the selection of the
    candidates and the fields read from each. *)
Definition parse_document (label default : string)
    (candidates : Soup -> res (list Tag))
    (fields : Tag -> res (string * string * string))
    (html_content : string) : Py (list NewsItem) (list NewsItem) :=
  (try_except
     (soup <- lift (BeautifulSoup html_content) ;;
      let website_name := get_site_name default soup in
      found <- lift (candidates soup) ;;
      for_each found (fun news =>
        try_except (parse_item fields website_name news)
          (fun e => emit (EvLog WARNING (ErrorParsingItem e)))))
     (fun e => emit (EvLog ERROR (ErrorParsingContent label e))) ;;;
   get_state)%py.

Definition Liputan6Parser_parse : string -> Py (list NewsItem) (list NewsItem) :=
  parse_document "Liputan6" "Liputan6"
    (fun soup => soup_find_all soup "div" "headline--main__wrapper")
    liputan6_fields.

Definition BisnisParser_parse : string -> Py (list NewsItem) (list NewsItem) :=
  parse_document "Bisnis" "Bisnis"
    (fun soup => soup_find_all soup "li" "big style2")
    bisnis_fields.

Definition ABCParser_parse : string -> Py (list NewsItem) (list NewsItem) :=
  parse_document "ABC" "ABC News"
    (fun soup => soup_select soup abc_selector)
    abc_fields.

End Parsers.

(** ** NewsScraping *)

Inductive parser_kind := Liputan6Parser | BisnisParser | ABCParser.

(** Where the thread that runs [scrape_news] stands. *)
Inductive thread_pc :=
| AtLoopHead                        (* at [while not self.stop_event.is_set()] *)
| AtFetch                           (* in the [try], at [self.fetch()] *)
| AtPush (news_data : list NewsItem) (* in [for news_item in news_data], items left *)
| AtSleep (remaining : list Z)      (* in [for _ in range(self.interval)], rounds left *)
| AtExcept (e : exn)                (* in the handler of the [try] *)
| Finished.                         (* [scrape_news] has returned *)

(** A [NewsScraping] object.  [thread] is [None] as in the source or the
    [Thread] object, represented by the point its run has reached. *)
Record NewsScraping := mkNewsScraping {
  news_site : string;
  interval : Z;
  news_queue : list NewsItem;
  stop_event : bool;
  http_client : HTTPClient;
  parser : parser_kind;
  thread : option thread_pc
}.

(** [self.thread and self.thread.is_alive()]. *)
Definition thread_alive (p : NewsScraping) : bool :=
  match thread p with
  | None => false
  | Some Finished => false
  | Some _ => true
  end.

(** [_create_parser]: exact comparison of the url with the three known ones. *)
Definition create_parser (news_site : string) : res parser_kind :=
  if bool_decide (news_site = "https://www.liputan6.com/") then Ok Liputan6Parser
  else if bool_decide (news_site = "https://www.bisnis.com/") then Ok BisnisParser
  else if bool_decide (news_site = "https://www.abc.net.au/news/indonesian") then Ok ABCParser
  else Raise (ValueError "Unsupported news site").

(** [NewsScraping.__init__] over a network for its [HTTPClient()]. *)
Definition NewsScraping_init (network : nat -> string -> res string)
    (news_site : string) (interval : Z) : res NewsScraping :=
  if negb (truthy news_site) || bool_decide (interval <= 0)
  then Raise (ValueError "Invalid parameters")
  else
    match create_parser news_site with
    | Raise e => Raise e
    | Ok parser =>
        Ok (mkNewsScraping news_site interval [] false
              (HTTPClient_default network) parser None)
    end.

Definition set_thread (p : NewsScraping) (t : option thread_pc) : NewsScraping :=
  mkNewsScraping (news_site p) (interval p) (news_queue p) (stop_event p)
    (http_client p) (parser p) t.

Definition set_stop_event (p : NewsScraping) (b : bool) : NewsScraping :=
  mkNewsScraping (news_site p) (interval p) (news_queue p) b
    (http_client p) (parser p) (thread p).

Definition set_news_queue (p : NewsScraping) (q : list NewsItem) : NewsScraping :=
  mkNewsScraping (news_site p) (interval p) q (stop_event p)
    (http_client p) (parser p) (thread p).

Definition set_http_client (p : NewsScraping) (c : HTTPClient) : NewsScraping :=
  mkNewsScraping (news_site p) (interval p) (news_queue p) (stop_event p)
    c (parser p) (thread p).

(** [start_thread]. *)
Definition start_thread (p : NewsScraping) : NewsScraping * list event :=
  if thread_alive p
  then (p, [EvLog WARNING ThreadAlreadyRunning])
  else (set_thread (set_stop_event p false) (Some AtLoopHead),
        [EvLog INFO (StartedThread (news_site p))]).

(** [stop_thread] up to the return of [join]: the event is set and, when
    there is a thread, the caller waits in [join(timeout=5)]. *)
Definition stop_thread_begin (p : NewsScraping) : NewsScraping * list event :=
  (set_stop_event p true,
   match thread p with
   | Some _ => [EvJoin (news_site p) 5]
   | None => []
   end).

(** [stop_thread] from the return of [join]: the thread has finished or
    the five seconds have passed. *)
Definition stop_thread_end (p : NewsScraping) : list event :=
  (if thread_alive p then [EvLog WARNING ThreadNotGraceful] else [])
    ++ [EvLog INFO (StoppedThread (news_site p))].

Section Threads.
Context {bs4 : BS4}.

(** [self.parser.parse(html_content)], a call on a fresh [news_items]. *)
Definition parser_parse (k : parser_kind) (html_content : string)
    : res (list NewsItem) * list event :=
  let '(r, _, evs) :=
    match k with
    | Liputan6Parser => Liputan6Parser_parse html_content []
    | BisnisParser => BisnisParser_parse html_content []
    | ABCParser => ABCParser_parse html_content []
    end in
  (r, evs).

(** [NewsScraping.fetch]. *)
Definition NewsScraping_fetch (p : NewsScraping)
    : res (option string) * HTTPClient * list event :=
  HTTPClient_fetch (http_client p) (news_site p).

(** One step of the thread that runs [scrape_news] on the object [p],
    from the point [pc].  A step is one test of the source with the
    statement it guards: the loop condition; the call of [fetch] and,
    on content, of [parse], neither of which reads the state shared with
    other threads; the read of the stop event for one item and the put
    of the item; the read of the stop event for one round of the wait
    and the sleep of one second; the handler. *)
Definition scrape_news_step (p : NewsScraping) (pc : thread_pc)
    : NewsScraping * list event :=
  match pc with
  | AtLoopHead =>
      if stop_event p
      then (set_thread p (Some Finished), [])
      else (set_thread p (Some AtFetch), [])
  | AtFetch =>
      let '(r, c, evs) := NewsScraping_fetch p in
      let p1 := set_http_client p c in
      match r with
      | Raise e => (set_thread p1 (Some (AtExcept e)), evs)
      | Ok None => (set_thread p1 (Some (AtSleep (range (interval p)))), evs)
      | Ok (Some html_content) =>
          if truthy html_content
          then
            match parser_parse (parser p) html_content with
            | (Raise e, pevs) => (set_thread p1 (Some (AtExcept e)), evs ++ pevs)
            | (Ok news_data, pevs) => (set_thread p1 (Some (AtPush news_data)), evs ++ pevs)
            end
          else (set_thread p1 (Some (AtSleep (range (interval p)))), evs)
      end
  | AtPush [] => (set_thread p (Some (AtSleep (range (interval p)))), [])
  | AtPush (news_item :: rest) =>
      if negb (stop_event p)
      then (set_thread (set_news_queue p (news_queue p ++ [news_item])) (Some (AtPush rest)),
            [EvPut (news_site p) news_item])
      else (set_thread p (Some (AtPush rest)), [])
  | AtSleep [] => (set_thread p (Some AtLoopHead), [])
  | AtSleep (_ :: rest) =>
      if stop_event p
      then (set_thread p (Some AtLoopHead), [])
      else (set_thread p (Some (AtSleep rest)), [EvSleep 1])
  | AtExcept e =>
      (set_thread p (Some AtLoopHead),
       [EvLog ERROR (ErrorScraping (news_site p) e); EvSleep 5])
  | Finished => (p, [])
  end.

(** A step of the thread of [p], if it has one. *)
Definition thread_step (p : NewsScraping) : NewsScraping * list event :=
  match thread p with
  | None => (p, [])
  | Some pc => scrape_news_step p pc
  end.

(** [n] steps of the thread of [p] with no other thread in between. *)
Fixpoint thread_steps (n : nat) (p : NewsScraping) : NewsScraping * list event :=
  match n with
  | O => (p, [])
  | S n' =>
      let '(p1, evs) := thread_step p in
      let '(p2, evs') := thread_steps n' p1 in
      (p2, evs ++ evs')
  end.

(** ** The aggregator *)

Definition news_tuple (news : NewsItem) : string * string * string * string :=
  (name news, title news, desc news, timestamp news).

(** Where the thread that runs [main_thread] stands. *)
Inductive main_pc :=
| AtLoopCheck          (* at [while not all(... is_set() ...)] *)
| AtDrain (i : nat)    (* in [for scraper in news_scrapers], at [while not queue.empty()] of scraper [i] *)
| AtTick               (* at [time.sleep(1)] *)
| AtCleanup (i : nat)  (* in [finally], at [stop_thread()] of scraper [i] *)
| AtJoin (i : nat)     (* inside [stop_thread()] of scraper [i], in [join] *)
| Returned.

Record System := mkSystem {
  news_scrapers : list NewsScraping;
  seen_news : gset (string * string * string * string);
  main : main_pc
}.

(** The body of the inner [try] for a dequeued item: print it and add its
    tuple unless the tuple is in [seen_news]. *)
Definition consume (seen : gset (string * string * string * string)) (news : NewsItem)
    : gset (string * string * string * string) * list event :=
  if bool_decide (news_tuple news ∈ seen)
  then (seen, [EvGet news])
  else (seen ∪ {[news_tuple news]}, [EvGet news; EvPrint news]).

(** One step of the thread that runs [main_thread].  The condition of the
    outer loop reads all the stop events in one step; a step of the inner
    loop tests the queue and, when it is not empty, takes the first item
    and runs the body of the inner [try] on it.  The main thread is the
    only consumer, so [get_nowait] finds the item that [empty] saw, and
    the prints are taken not to fail: the bare [except] is never entered. *)
Definition main_step (s : System) : System * list event :=
  match main s with
  | AtLoopCheck =>
      if forallb stop_event (news_scrapers s)
      then (mkSystem (news_scrapers s) (seen_news s) (AtCleanup 0), [])
      else (mkSystem (news_scrapers s) (seen_news s) (AtDrain 0), [])
  | AtDrain i =>
      match news_scrapers s !! i with
      | None => (mkSystem (news_scrapers s) (seen_news s) AtTick, [])
      | Some scraper =>
          match news_queue scraper with
          | [] => (mkSystem (news_scrapers s) (seen_news s) (AtDrain (S i)), [])
          | news :: q =>
              let '(seen, evs) := consume (seen_news s) news in
              (mkSystem (<[i := set_news_queue scraper q]> (news_scrapers s)) seen (AtDrain i),
               evs)
          end
      end
  | AtTick => (mkSystem (news_scrapers s) (seen_news s) AtLoopCheck, [EvSleep 1])
  | AtCleanup i =>
      match news_scrapers s !! i with
      | None => (mkSystem (news_scrapers s) (seen_news s) Returned, [])
      | Some scraper =>
          let '(scraper1, evs) := stop_thread_begin scraper in
          match thread scraper with
          | Some _ =>
              (mkSystem (<[i := scraper1]> (news_scrapers s)) (seen_news s) (AtJoin i), evs)
          | None =>
              (mkSystem
                 (<[i := set_http_client scraper1 (HTTPClient_close (http_client scraper1))]>
                    (news_scrapers s))
                 (seen_news s) (AtCleanup (S i)),
               evs ++ stop_thread_end scraper1 ++ [EvClose (news_site scraper1)])
          end
      end
  | AtJoin i =>
      match news_scrapers s !! i with
      | None => (mkSystem (news_scrapers s) (seen_news s) Returned, [])
      | Some scraper =>
          (mkSystem
             (<[i := set_http_client scraper (HTTPClient_close (http_client scraper))]>
                (news_scrapers s))
             (seen_news s) (AtCleanup (S i)),
           stop_thread_end scraper ++ [EvClose (news_site scraper)])
      end
  | Returned => (s, [])
  end.

(** A [KeyboardInterrupt] raised in the main thread between two of its
    steps: inside the [try] it is logged and control passes to [finally];
    inside [finally] it ends [main_thread]. *)
Definition main_interrupt (s : System) : System * list event :=
  match main s with
  | AtLoopCheck | AtDrain _ | AtTick =>
      (mkSystem (news_scrapers s) (seen_news s) (AtCleanup 0), [EvLog INFO ReceivedInterrupt])
  | AtCleanup _ | AtJoin _ => (mkSystem (news_scrapers s) (seen_news s) Returned, [])
  | Returned => (s, [])
  end.

(** ** Schedules *)

(** What can happen next in the process. *)
Inductive action :=
| RunMain                (* the main thread takes a step *)
| RunScraper (i : nat)   (* the thread of scraper [i] takes a step *)
| Interrupt              (* a [KeyboardInterrupt] reaches the main thread *)
| CallStart (i : nat)    (* some other caller runs [start_thread] on scraper [i] *)
| CallStop (i : nat).    (* some other caller sets the stop event of scraper [i],
                            as the signal handler does through [stop_thread] *)

#[global] Instance action_eq_dec : EqDecision action.
Proof. solve_decision. Defined.

Definition on_scraper (i : nat) (f : NewsScraping -> NewsScraping * list event)
    (s : System) : System * list event :=
  match news_scrapers s !! i with
  | None => (s, [])
  | Some p =>
      let '(p', evs) := f p in
      (mkSystem (<[i := p']> (news_scrapers s)) (seen_news s) (main s), evs)
  end.

Definition step (a : action) (s : System) : System * list event :=
  match a with
  | RunMain => main_step s
  | RunScraper i => on_scraper i thread_step s
  | Interrupt => main_interrupt s
  | CallStart i => on_scraper i start_thread s
  | CallStop i => on_scraper i (fun p => (set_stop_event p true, [])) s
  end.

(** A run: every event is tagged with the action that produced it. *)
Fixpoint run (sch : list action) (s : System) : System * list (action * event) :=
  match sch with
  | [] => (s, [])
  | a :: rest =>
      let '(s1, evs) := step a s in
      let '(s2, evs') := run rest s1 in
      (s2, ((fun e => (a, e)) <$> evs) ++ evs')
  end.

Definition events (tr : list (action * event)) : list event := snd <$> tr.

(** The events of the thread of scraper [i] in a run. *)
Definition events_of_scraper (i : nat) (tr : list (action * event)) : list event :=
  omap (fun ae => match ae.1 with
                  | RunScraper j => if bool_decide (i = j) then Some ae.2 else None
                  | _ => None
                  end) tr.

(** [main_thread(news_scrapers)] when it is entered. *)
Definition main_thread (scrapers : list NewsScraping) : System :=
  mkSystem scrapers ∅ AtLoopCheck.

End Threads.

(** ** The main program *)

(** What the loop over the configurations logs: the record of
    [start_thread], or the failure to create a scraper. *)
Inductive startup_record :=
| Logged (ev : event)
| FailedToCreate (url : string) (e : exn).

(** The loop [for url, interval in configs] of the main program, over the
    configurations left, with the list [scrapers] and the log so far:
    a scraper that is built is appended and started, an exception of the
    constructor is logged and the loop goes on. *)
Fixpoint create_scrapers (network : nat -> string -> res string)
    (configs : list (string * Z)) (scrapers : list NewsScraping)
    (log : list startup_record) : list NewsScraping * list startup_record :=
  match configs with
  | [] => (scrapers, log)
  | (url, interval) :: rest =>
      match NewsScraping_init network url interval with
      | Ok scraper =>
          let '(started, evs) := start_thread scraper in
          create_scrapers network rest (scrapers ++ [started]) (log ++ (Logged <$> evs))
      | Raise e =>
          create_scrapers network rest scrapers (log ++ [FailedToCreate url e])
      end
  end.

(** The configurations of the source. *)
Definition configs : list (string * Z) :=
  [("https://www.liputan6.com/", 3600); ("https://www.bisnis.com/", 1800);
   ("https://www.abc.net.au/news/indonesian", 900)].

(** [if scrapers: main_thread(scrapers)]. *)
Definition program_start (network : nat -> string -> res string)
    (configs : list (string * Z)) : option System :=
  match (create_scrapers network configs [] []).1 with
  | [] => None
  | scrapers => Some (main_thread scrapers)
  end.

(** * Vocabulary of the properties *)

(** ** Known sites *)

Definition known_sites : list string :=
  ["https://www.liputan6.com/"; "https://www.bisnis.com/";
   "https://www.abc.net.au/news/indonesian"].

(** ** Observations on a call of fetch *)

Definition advance (s : Session) (k : nat) : Session :=
  mkSession (respond s) (sent s + k)%nat (closed s).

(** The events of the timed out attempts [a], ..., [a + k - 1], each
    followed by its backoff. *)
Definition timed_out_attempts (t : Z) (url : string) (a k : nat) : list event :=
  flat_map (fun i : nat =>
              [EvRequest url t; EvLog WARNING (TimeoutAttempt (Z.of_nat i + 1) url);
               EvSleep (2 ^ Z.of_nat i)])
           (seq a k).

(** What a call of [fetch] is observed to do. *)
Definition fetch_result (c : HTTPClient) (url : string) : res (option string) :=
  (HTTPClient_fetch c url).1.1.

Definition fetch_events (c : HTTPClient) (url : string) : list event :=
  (HTTPClient_fetch c url).2.

Definition attempts_made (c : HTTPClient) (url : string) : nat :=
  length (requests_of (fetch_events c url)).

Definition backoff_waits (c : HTTPClient) (url : string) : list Z :=
  sleeps_of (fetch_events c url).

(** ** Observations on traces *)

Definition is_log (ev : event) : Prop :=
  match ev with
  | EvLog _ _ => True
  | _ => False
  end.

(** Events that touch neither a queue nor the output. *)
Definition quiet (ev : event) : Prop :=
  match ev with
  | EvPut _ _ | EvGet _ | EvPrint _ => False
  | _ => True
  end.

(** The gets and prints of a trace, in order. *)
Definition io_of (evs : list event) : list event :=
  omap (fun e => match e with EvGet _ | EvPrint _ => Some e | _ => None end) evs.

(** An event by which [start_thread] really starts a new thread for
    scraper [i]; a call on a live thread only logs a warning. *)
Definition is_restart (i : nat) (ae : action * event) : bool :=
  match ae with
  | (CallStart j, EvLog INFO (StartedThread _)) => bool_decide (i = j)
  | _ => false
  end.


(** ** Results of the parsers *)

Section ParserVocabulary.
Context {bs4 : BS4}.

Definition nonempty_fields (item : NewsItem) : Prop :=
  name item ≠ "" ∧ title item ≠ "" ∧ desc item ≠ "" ∧ timestamp item ≠ "".

Definition parser_default (k : parser_kind) : string :=
  match k with
  | Liputan6Parser => "Liputan6"
  | BisnisParser => "Bisnis"
  | ABCParser => "ABC News"
  end.

(** What one candidate element contributes to the result of [parse]. *)
Definition candidate_items (fields : Tag -> res (string * string * string))
    (website_name : string) (news : Tag) : list NewsItem :=
  match fields news with
  | Ok (t, d, ts) =>
      if truthy t && truthy d && truthy ts
      then match NewsItem_init website_name t d ts with
           | Ok item => [item]
           | Raise _ => []
           end
      else []
  | Raise _ => []
  end.

Definition parser_candidates (k : parser_kind) (soup : Soup) : res (list Tag) :=
  match k with
  | Liputan6Parser => soup_find_all soup "div" "headline--main__wrapper"
  | BisnisParser => soup_find_all soup "li" "big style2"
  | ABCParser => soup_select soup abc_selector
  end.

Definition parser_fields (k : parser_kind) : Tag -> res (string * string * string) :=
  match k with
  | Liputan6Parser => liputan6_fields
  | BisnisParser => bisnis_fields
  | ABCParser => abc_fields
  end.

End ParserVocabulary.

(** ** Arrivals at the aggregator *)

(** The arrivals that are the first with their tuple, given the tuples
    that arrived earlier. *)
Fixpoint first_arrivals_after (earlier : list (string * string * string * string))
    (arrivals : list NewsItem) : list NewsItem :=
  match arrivals with
  | [] => []
  | news :: rest =>
      if bool_decide (news_tuple news ∈ earlier)
      then first_arrivals_after earlier rest
      else news :: first_arrivals_after (news_tuple news :: earlier) rest
  end.


(** What the aggregator is to do with a sequence of arrivals, given the
    tuples that arrived earlier: get each one, and print it right after
    when its tuple has not arrived before. *)
Fixpoint deliveries_after (earlier : list (string * string * string * string))
    (arrivals : list NewsItem) : list event :=
  match arrivals with
  | [] => []
  | news :: rest =>
      if bool_decide (news_tuple news ∈ earlier)
      then EvGet news :: deliveries_after earlier rest
      else EvGet news :: EvPrint news :: deliveries_after (news_tuple news :: earlier) rest
  end.

(** ** States of the process *)

Section StateVocabulary.
Context {bs4 : BS4}.

(** The main thread has left the [while] loop. *)
Definition left_loop (s : System) : Prop :=
  match main s with
  | AtCleanup _ | AtJoin _ | Returned => True
  | AtLoopCheck | AtDrain _ | AtTick => False
  end.

(** Every queue of [s] is still a prefix of the queue in [s']. *)
Definition queues_kept (s s' : System) : Prop :=
  ∀ i p, news_scrapers s !! i = Some p →
         ∃ p', news_scrapers s' !! i = Some p' ∧ news_queue p `prefix_of` news_queue p'.

(** What a step that is not a dequeue does: no get, no print, the set
    unchanged. *)
Definition silent (s : System) (a : action) : Prop :=
  io_of (step a s).2 = [] ∧ seen_news (step a s).1 = seen_news s.

End StateVocabulary.

(** ** A document model for examples

    A stand-in for BeautifulSoup, enough to run the parsers: a document
    has an optional title and a list of cards; a card maps the tag names
    searched in it to the text found there; a broken card raises on every
    access. *)

Inductive stub_tag :=
| StubHead (title : option string)
| StubTitle (text : string)
| StubCard (parts : list (string * string))
| StubBroken
| StubLeaf (text : string).

Fixpoint assoc (key : string) (l : list (string * string)) : option string :=
  match l with
  | [] => None
  | (k, v) :: rest => if bool_decide (k = key) then Some v else assoc key rest
  end.

Definition stub_parse (html_content : string) : res (option string * list stub_tag) :=
  if bool_decide (html_content = "<page/>")
  then Ok (Some "SiteA",
           [StubCard [("h1", "T1"); ("p", "D1"); ("time", "2023-01-01")];
            StubBroken;
            StubCard [("p", "D2"); ("time", "2023-01-02")];
            StubCard [("h1", "T3"); ("p", "D3"); ("time", "2023-01-03")]])
  else if bool_decide (html_content = "<") then Raise (OtherException "malformed document")
  else Ok (None, []).

Definition stub_find (el : stub_tag) (tag : string) (cls : option string)
    : res (option stub_tag) :=
  match el with
  | StubHead (Some t) => Ok (if bool_decide (tag = "title") then Some (StubTitle t) else None)
  | StubCard parts => Ok (StubLeaf <$> assoc tag parts)
  | StubBroken => Raise (OtherException "broken element")
  | _ => Ok None
  end.

Definition stub_text (el : stub_tag) : res string :=
  match el with
  | StubTitle t | StubLeaf t => Ok t
  | StubBroken => Raise (OtherException "broken element")
  | _ => Ok ""
  end.

Definition stub_bs4 : BS4 := {|
  Soup := option string * list stub_tag;
  Tag := stub_tag;
  BeautifulSoup := stub_parse;
  soup_head := fun soup => Some (StubHead soup.1);
  soup_find_all := fun soup _ _ => Ok soup.2;
  soup_select := fun soup _ => Ok soup.2;
  tag_find := stub_find;
  tag_string := fun el => match stub_text el with Ok t => Ok (Some t) | Raise e => Raise e end;
  tag_get_text := stub_text;
  tag_get := fun el _ => stub_text el
|}.

(** ** Example networks and scrapers *)

(** A network that always answers with the example page, one that never
    answers in time and one that breaks inside the transport. *)
Definition page_network : nat -> string -> res string := fun _ _ => Ok "<page/>".
Definition dead_network : nat -> string -> res string := fun _ _ => Raise Timeout.
Definition faulty_network : nat -> string -> res string :=
  fun n _ => if bool_decide (n = 0%nat) then Raise (OtherException "decoding failed")
             else Ok "<page/>".

(** A scraper as [__init__] builds it, then with its thread at a point. *)
Definition scraper_at (network : nat -> string -> res string) (site : string)
    (stop : bool) (pc : thread_pc) : NewsScraping :=
  mkNewsScraping site 2 [] stop (HTTPClient_default network)
    (match create_parser site with Ok k => k | Raise _ => Liputan6Parser end) (Some pc).

Definition item1 : NewsItem := mkNewsItem "SiteA" "T1" "D1" "2023-01-01".
Definition item3 : NewsItem := mkNewsItem "SiteA" "T3" "D3" "2023-01-03".

(** ** More observations on fetch and on the scraping thread *)

(** What [fetch] makes of the first answer that is not a timeout. *)
Definition definite_outcome (r : res string) : res (option string) :=
  match r with
  | Ok text => Ok (Some text)
  | Raise (RequestException _) => Ok None
  | Raise e => Raise e
  end.

(** The client after a call of [fetch]. *)
Definition fetch_client (c : HTTPClient) (url : string) : HTTPClient :=
  (HTTPClient_fetch c url).1.2.

(** The steps a thread with its stop event set still takes from a point
    other than the call of [fetch]. *)
Definition steps_to_finish (pc : thread_pc) : nat :=
  match pc with
  | AtLoopHead => 1
  | AtFetch => 0
  | AtPush news_data => length news_data + 3
  | AtSleep _ => 2
  | AtExcept _ => 2
  | Finished => 0
  end.

(** A network that never delivers content: no answer with a non-empty text. *)
Definition no_content (network : nat -> string -> res string) : Prop :=
  ∀ n url text, network n url = Ok text → text = "".

(** The thread of a scraper whose network delivers no content never
    reaches a batch with an item in it. *)
Definition no_batch (p : NewsScraping) : Prop :=
  no_content (respond (session (http_client p))) ∧
  ∀ item rest, thread p ≠ Some (AtPush (item :: rest)).

(** ** Queues, shutdown and startup *)

(** All the items waiting in the queues, scraper by scraper. *)
Definition queued (scrapers : list NewsScraping) : list NewsItem :=
  concat (news_queue <$> scrapers).

(** A scraper that has been shut down by [finally]. *)
Definition shut (p : NewsScraping) : Prop :=
  stop_event p = true ∧ closed (session (http_client p)) = true.

Definition closes_of (evs : list event) : list string :=
  omap (fun e => match e with EvClose site => Some site | _ => None end) evs.

(** [stop_thread] followed by [http_client.close()] on a scraper. *)
Definition shut_down (p : NewsScraping) : NewsScraping :=
  set_http_client (set_stop_event p true) (HTTPClient_close (http_client p)).

(** A configuration the constructor accepts. *)
Definition valid_config (c : string * Z) : Prop := c.1 ∈ known_sites ∧ 0 < c.2.

#[global] Instance valid_config_dec (c : string * Z) : Decision (valid_config c).
Proof. unfold valid_config. apply _. Defined.

(** A scraper built and started and not yet run. *)
Definition fresh_scraper (network : nat -> string -> res string) (p : NewsScraping) : Prop :=
  thread p = Some AtLoopHead ∧ stop_event p = false ∧ news_queue p = [] ∧
  http_client p = HTTPClient_default network ∧
  create_parser (news_site p) = Ok (parser p).

Definition failures_of (log : list startup_record) : list string :=
  omap (fun r => match r with FailedToCreate url _ => Some url | Logged _ => None end) log.

(** ** The log of the parsers *)

Section ParserLogVocabulary.
Context {bs4 : BS4}.

(** The label of a parser in its error record. *)
Definition parser_label (k : parser_kind) : string :=
  match k with
  | Liputan6Parser => "Liputan6"
  | BisnisParser => "Bisnis"
  | ABCParser => "ABC"
  end.

(** The warning a candidate element leaves in the log. *)
Definition candidate_warning (fields : Tag -> res (string * string * string))
    (news : Tag) : list event :=
  match fields news with
  | Raise e => [EvLog WARNING (ErrorParsingItem e)]
  | Ok _ => []
  end.

End ParserLogVocabulary.
(** * Properties *)

(** ** NewsItem *)

(** C3.  Building a [NewsItem] with any one of the four fields empty raises
    the [ValueError] of the constructor (the spec's ValidationError), and
    building it with four non-empty fields succeeds and gives the item that
    holds exactly these four values. *)
Theorem NewsItem_init_validates (n t d ts : string) :
  (n = "" ∨ t = "" ∨ d = "" ∨ ts = "" →
   NewsItem_init n t d ts = Raise (ValueError "All fields must be non-empty")) ∧
  (n ≠ "" → t ≠ "" → d ≠ "" → ts ≠ "" →
   ∃ item, NewsItem_init n t d ts = Ok item ∧
           name item = n ∧ title item = t ∧ desc item = d ∧ timestamp item = ts).
Proof.
  split.
  - intros H. unfold NewsItem_init.
    destruct n, t, d, ts; simpl; try reflexivity;
      destruct H as [H | [H | [H | H]]]; discriminate H.
  - intros Hn Ht Hd Hts. exists (mkNewsItem n t d ts).
    destruct n, t, d, ts; try congruence. by cbn.
Qed.

Lemma NewsItem_init_validates_witness :
  NewsItem_init "SiteA" "" "D1" "2023-01-01"
    = Raise (ValueError "All fields must be non-empty") ∧
  ∃ item, NewsItem_init "SiteA" "T1" "D1" "2023-01-01" = Ok item ∧
          name item = "SiteA" ∧ title item = "T1" ∧ desc item = "D1" ∧
          timestamp item = "2023-01-01".
Proof.
  split.
  - apply (proj1 (NewsItem_init_validates "SiteA" "" "D1" "2023-01-01")).
    right; left; reflexivity.
  - apply (proj2 (NewsItem_init_validates "SiteA" "T1" "D1" "2023-01-01"));
      intros H; discriminate H.
Defined.

(** ** Construction of a scraper *)

Lemma create_parser_known (site : string) :
  site ∈ known_sites → ∃ k, create_parser site = Ok k.
Proof.
  unfold known_sites. rewrite !elem_of_cons, elem_of_nil.
  intros [-> | [-> | [-> | []]]]; eexists; reflexivity.
Qed.

Lemma create_parser_unknown (site : string) :
  site ∉ known_sites → create_parser site = Raise (ValueError "Unsupported news site").
Proof.
  unfold known_sites. rewrite !not_elem_of_cons. intros (H1 & H2 & H3 & _).
  unfold create_parser. by rewrite !bool_decide_eq_false_2.
Qed.

(** C4.  The constructor raises the [ValueError] for invalid parameters
    (ValidationError) on an empty url or an interval that is not positive;
    it raises a [ValueError] on every url that is not exactly one of the
    three known ones, and on parameters that pass the first check this
    is the [ValueError] for an unsupported site (UnsupportedSourceError);
    the constructor raises, so no object and no thread exists.  With a
    known url and a positive interval it returns a scraper whose [thread]
    is still [None]. *)
Theorem NewsScraping_init_checks (network : nat -> string -> res string)
    (site : string) (n : Z) :
  (site = "" ∨ n <= 0 →
   NewsScraping_init network site n = Raise (ValueError "Invalid parameters")) ∧
  (site ∉ known_sites →
   ∃ msg, NewsScraping_init network site n = Raise (ValueError msg)) ∧
  (site ≠ "" → 0 < n → site ∉ known_sites →
   NewsScraping_init network site n = Raise (ValueError "Unsupported news site")) ∧
  (site ∈ known_sites → 0 < n →
   ∃ p, NewsScraping_init network site n = Ok p ∧
        news_site p = site ∧ interval p = n ∧ thread p = None ∧
        thread_alive p = false ∧ stop_event p = false ∧ news_queue p = []).
Proof.
  unfold NewsScraping_init. split; [| split; [| split]].
  - intros [-> | H]; [reflexivity |].
    rewrite (bool_decide_eq_true_2 _ H). by rewrite orb_true_r.
  - intros Hk. rewrite (create_parser_unknown site Hk).
    destruct (negb (truthy site) || bool_decide (n <= 0)); eauto.
  - intros Hs Hn Hk.
    rewrite (bool_decide_eq_false_2 (n <= 0)) by lia.
    destruct site; [congruence |]. cbn [truthy negb orb].
    by rewrite create_parser_unknown.
  - intros Hk Hn.
    rewrite (bool_decide_eq_false_2 (n <= 0)) by lia.
    destruct (create_parser_known site Hk) as [k Hc].
    assert (truthy site = true) as ->.
    { revert Hk. unfold known_sites. rewrite !elem_of_cons, elem_of_nil.
      intros [-> | [-> | [-> | []]]]; reflexivity. }
    cbn [negb orb]. rewrite Hc. eexists. split; [reflexivity |]. by cbn.
Qed.

Lemma NewsScraping_init_checks_witness :
  let network := fun (_ : nat) (_ : string) => Ok "<html></html>" in
  NewsScraping_init network "https://www.bisnis.com/" 0
    = Raise (ValueError "Invalid parameters") ∧
  (∃ msg, NewsScraping_init network "https://unknown.example/" 0 = Raise (ValueError msg)) ∧
  NewsScraping_init network "https://unknown.example/" 60
    = Raise (ValueError "Unsupported news site") ∧
  ∃ p, NewsScraping_init network "https://www.bisnis.com/" 1800 = Ok p ∧
       news_site p = "https://www.bisnis.com/" ∧ interval p = 1800 ∧
       thread p = None ∧ thread_alive p = false ∧ stop_event p = false ∧
       news_queue p = [].
Proof.
  intros network.
  assert ("https://unknown.example/" ∉ known_sites) as Hunknown.
  { unfold known_sites. rewrite !not_elem_of_cons.
    repeat split; try (intros H; discriminate H). apply not_elem_of_nil. }
  split; [| split; [| split]].
  - apply (proj1 (NewsScraping_init_checks network "https://www.bisnis.com/" 0)).
    right. lia.
  - apply (proj1 (proj2 (NewsScraping_init_checks network "https://unknown.example/" 0))).
    exact Hunknown.
  - apply (proj1 (proj2 (proj2
             (NewsScraping_init_checks network "https://unknown.example/" 60)))).
    + intros H; discriminate H.
    + lia.
    + exact Hunknown.
  - apply (proj2 (proj2 (proj2
             (NewsScraping_init_checks network "https://www.bisnis.com/" 1800)))).
    + unfold known_sites. rewrite !elem_of_cons. right; left; reflexivity.
    + lia.
Defined.

(** A url that differs from a known one by its last character is refused. *)
Example create_parser_exact :
  create_parser "https://www.liputan6.com" = Raise (ValueError "Unsupported news site").
Proof. reflexivity. Qed.

(** ** start_thread *)

Lemma thread_alive_start (p : NewsScraping) : thread_alive (start_thread p).1 = true.
Proof.
  unfold start_thread. destruct (thread_alive p) eqn:H; [exact H | reflexivity].
Qed.

(** C9.  [start_thread] on a scraper whose thread is alive only logs a
    warning and returns the object unchanged; on a scraper without a live
    thread it clears the stop event and starts a thread at the head of the
    loop of [scrape_news]; two calls in a row leave the object in the state
    one call gives. *)
Theorem start_thread_idempotent (p : NewsScraping) :
  (thread_alive p = true →
   start_thread p = (p, [EvLog WARNING ThreadAlreadyRunning])) ∧
  (thread_alive p = false →
   start_thread p
     = (mkNewsScraping (news_site p) (interval p) (news_queue p) false
          (http_client p) (parser p) (Some AtLoopHead),
        [EvLog INFO (StartedThread (news_site p))])) ∧
  (start_thread (start_thread p).1).1 = (start_thread p).1.
Proof.
  split; [| split].
  - intros H. unfold start_thread. by rewrite H.
  - intros H. unfold start_thread. by rewrite H.
  - pose proof (thread_alive_start p) as H.
    unfold start_thread at 1. by rewrite H.
Qed.

Lemma start_thread_idempotent_witness :
  let c := HTTPClient_default (fun _ _ => Raise Timeout) in
  let stopped := mkNewsScraping "https://www.bisnis.com/" 1800 [] true c BisnisParser None in
  let running :=
    mkNewsScraping "https://www.bisnis.com/" 1800 [] false c BisnisParser (Some AtLoopHead) in
  start_thread running = (running, [EvLog WARNING ThreadAlreadyRunning]) ∧
  start_thread stopped = (running, [EvLog INFO (StartedThread "https://www.bisnis.com/")]) ∧
  (start_thread (start_thread stopped).1).1 = (start_thread stopped).1.
Proof.
  intros c stopped running. split; [| split].
  - apply (proj1 (start_thread_idempotent running)). reflexivity.
  - apply (proj1 (proj2 (start_thread_idempotent stopped))). reflexivity.
  - apply (proj2 (proj2 (start_thread_idempotent stopped))).
Defined.

(** ** HTTPClient.fetch *)

Lemma advance_0 (s : Session) : advance s 0 = s.
Proof. destruct s. unfold advance. cbn. by rewrite Nat.add_0_r. Qed.

Lemma fetch_loop_timeouts (t m : Z) (url : string) (rest : list Z) (k : nat) :
  ∀ (a : nat) (s : Session),
    (∀ i, (i < k)%nat → respond s (sent s + i)%nat url = Raise Timeout) →
    Z.of_nat (a + k) < m →
    fetch_loop t m url ((Z.of_nat <$> seq a k) ++ rest) s =
      let '(r, s', evs) := fetch_loop t m url rest (advance s k) in
      (r, s', timed_out_attempts t url a k ++ evs).
Proof.
  induction k as [| k IH]; intros a s Hto Hlt.
  - cbn. rewrite advance_0. by destruct (fetch_loop t m url rest s) as [[? ?] ?].
  - cbn [seq fmap list_fmap app fetch_loop session_get].
    pose proof (Hto 0%nat ltac:(lia)) as H0. rewrite Nat.add_0_r in H0. rewrite H0.
    rewrite bool_decide_eq_true_2 by lia.
    change (list_fmap nat Z Z.of_nat (seq (S a) k)) with (Z.of_nat <$> seq (S a) k).
    rewrite (IH (S a)); cbn [respond sent].
    + replace (advance {| respond := respond s; sent := S (sent s); closed := closed s |} k)
        with (advance s (S k)).
      2:{ unfold advance; cbn. f_equal. lia. }
      destruct (fetch_loop t m url rest (advance s (S k))) as [[r s'] evs].
      reflexivity.
    + intros i Hi. replace (S (sent s) + i)%nat with (sent s + S i)%nat by lia.
      apply Hto. lia.
    + lia.
Qed.

Lemma sleeps_of_app (l1 l2 : list event) : sleeps_of (l1 ++ l2) = sleeps_of l1 ++ sleeps_of l2.
Proof. unfold sleeps_of. apply omap_app. Qed.

Lemma requests_of_app (l1 l2 : list event) :
  requests_of (l1 ++ l2) = requests_of l1 ++ requests_of l2.
Proof. unfold requests_of. apply omap_app. Qed.

Lemma sleeps_of_timed_out (t : Z) (url : string) (k : nat) :
  ∀ a, sleeps_of (timed_out_attempts t url a k) = (fun i : nat => 2 ^ Z.of_nat i) <$> seq a k.
Proof.
  induction k as [| k IH]; intros a; [reflexivity |].
  cbn. f_equal. apply IH.
Qed.

Lemma requests_of_timed_out (t : Z) (url : string) (k : nat) :
  ∀ a, length (requests_of (timed_out_attempts t url a k)) = k.
Proof.
  induction k as [| k IH]; intros a; [reflexivity |].
  cbn. f_equal. apply IH.
Qed.

Lemma range_split (m : Z) (k : nat) :
  Z.of_nat k < m →
  range m = (Z.of_nat <$> seq 0 k) ++ Z.of_nat k :: (Z.of_nat <$> seq (S k) (Z.to_nat m - S k)).
Proof.
  intros H. unfold range.
  replace (Z.to_nat m) with (k + S (Z.to_nat m - S k))%nat at 1 by lia.
  rewrite seq_app, fmap_app. reflexivity.
Qed.





(** ** Parsers *)

Section ParserProperties.
Context {bs4 : BS4}.

Lemma truthy_nonempty (s : string) : truthy s = true ↔ s ≠ "".
Proof. destruct s; cbn; split; congruence. Qed.

Lemma NewsItem_init_ok (n t d ts : string) (item : NewsItem) :
  NewsItem_init n t d ts = Ok item → item = mkNewsItem n t d ts ∧ nonempty_fields item.
Proof.
  unfold NewsItem_init.
  destruct (forallb truthy [n; t; d; ts]) eqn:H; cbn; [| discriminate].
  intros [= <-]. split; [reflexivity |].
  cbn in H. rewrite !andb_true_iff, !truthy_nonempty in H.
  unfold nonempty_fields; cbn. tauto.
Qed.

Lemma candidate_items_nonempty fields website_name news :
  Forall nonempty_fields (candidate_items fields website_name news).
Proof.
  unfold candidate_items.
  destruct (fields news) as [[[t d] ts] | e]; [| constructor].
  destruct (truthy t && truthy d && truthy ts); [| constructor].
  destruct (NewsItem_init website_name t d ts) as [item | e] eqn:H; [| constructor].
  apply NewsItem_init_ok in H as [_ H]. constructor; [exact H | constructor].
Qed.

(** The inner [try] of one candidate never raises and appends what the
    candidate contributes. *)
Lemma parse_item_guarded fields website_name news (news_items : list NewsItem) :
  ∃ evs,
    try_except (parse_item fields website_name news)
      (fun e => emit (EvLog WARNING (ErrorParsingItem e))) news_items
    = (Ok tt, news_items ++ candidate_items fields website_name news, evs) ∧
    Forall is_log evs.
Proof.
  unfold try_except, parse_item, candidate_items, bind, lift, emit, modify, ret.
  destruct (fields news) as [[[t d] ts] | e]; cbn.
  - destruct (truthy t && truthy d && truthy ts); cbn.
    + destruct (NewsItem_init website_name t d ts) as [item | e]; cbn;
        rewrite ?app_nil_r; eexists; (split; [reflexivity | by repeat constructor]).
    + rewrite app_nil_r; eexists; (split; [reflexivity | by repeat constructor]).
  - rewrite app_nil_r; eexists; (split; [reflexivity | by repeat constructor]).
Qed.

Lemma parse_loop fields website_name (found : list Tag) :
  ∀ news_items : list NewsItem, ∃ evs,
    for_each found (fun news =>
      try_except (parse_item fields website_name news)
        (fun e => emit (EvLog WARNING (ErrorParsingItem e)))) news_items
    = (Ok tt, news_items ++ flat_map (candidate_items fields website_name) found, evs) ∧
    Forall is_log evs.
Proof.
  induction found as [| news found IH]; intros news_items.
  - cbn. rewrite app_nil_r. eexists; split; [reflexivity | constructor].
  - cbn [for_each flat_map]. unfold bind at 1.
    destruct (parse_item_guarded fields website_name news news_items) as (evs1 & -> & Hl1).
    destruct (IH (news_items ++ candidate_items fields website_name news)) as (evs2 & -> & Hl2).
    rewrite <- app_assoc. eexists; split; [reflexivity |]. by apply Forall_app.
Qed.

(** [parse] on a fresh list: it returns, and it returns the local list. *)
Lemma parse_document_returns label default candidates fields (html_content : string) :
  ∃ items evs,
    parse_document label default candidates fields html_content [] = (Ok items, items, evs) ∧
    Forall is_log evs ∧
    Forall nonempty_fields items ∧
    ∀ soup found,
      BeautifulSoup html_content = Ok soup → candidates soup = Ok found →
      items = flat_map (candidate_items fields (get_site_name default soup)) found.
Proof.
  unfold parse_document, bind at 1, try_except at 1, bind at 1, lift at 1.
  destruct (BeautifulSoup html_content) as [soup | e] eqn:Hsoup.
  - unfold bind at 1, lift at 1.
    destruct (candidates soup) as [found | e] eqn:Hfound.
    + destruct (parse_loop fields (get_site_name default soup) found []) as (evs & -> & Hl).
      cbn. eexists _, _. split; [reflexivity |]. rewrite app_nil_r. split; [exact Hl |]. split.
      * apply Forall_flat_map, Forall_forall. intros news _.
        apply candidate_items_nonempty.
      * intros soup' found' [= <-] Hf. rewrite Hfound in Hf. by injection Hf as <-.
    + cbn. eexists _, _. split; [reflexivity |]. split; [by repeat constructor |].
      split; [constructor |].
      intros soup' found' [= <-] Hf. rewrite Hfound in Hf. discriminate Hf.
  - cbn. eexists _, _. split; [reflexivity |]. split; [by repeat constructor |].
    split; [constructor |].
    intros soup found Hs. discriminate Hs.
Qed.

Lemma parser_parse_returns (k : parser_kind) (html_content : string) :
  ∃ items evs,
    parser_parse k html_content = (Ok items, evs) ∧
    Forall is_log evs ∧
    Forall nonempty_fields items ∧
    ∀ soup found,
      BeautifulSoup html_content = Ok soup → parser_candidates k soup = Ok found →
      items = flat_map (candidate_items (parser_fields k)
                          (get_site_name (parser_default k) soup)) found.
Proof.
  unfold parser_parse.
  destruct k.
  - destruct (parse_document_returns "Liputan6" "Liputan6"
                (fun soup => soup_find_all soup "div" "headline--main__wrapper")
                liputan6_fields html_content) as (items & evs & Hrun & Hl & Hne & Hall).
    unfold Liputan6Parser_parse. rewrite Hrun. exists items, evs. eauto.
  - destruct (parse_document_returns "Bisnis" "Bisnis"
                (fun soup => soup_find_all soup "li" "big style2")
                bisnis_fields html_content) as (items & evs & Hrun & Hl & Hne & Hall).
    unfold BisnisParser_parse. rewrite Hrun. exists items, evs. eauto.
  - destruct (parse_document_returns "ABC" "ABC News"
                (fun soup => soup_select soup abc_selector)
                abc_fields html_content) as (items & evs & Hrun & Hl & Hne & Hall).
    unfold ABCParser_parse. rewrite Hrun. exists items, evs. eauto.
Qed.

(** C8.  For every input string and every parser, [parse] returns a list
    and never raises; every item of the list has its four fields
    non-empty; when the document and the candidates are obtained, the
    list is made of what each candidate contributes, in order, a
    candidate whose processing raises contributing nothing and leaving
    the others in place; and a missing sub-element reads as the empty
    string. *)
Theorem parse_total (k : parser_kind) (html_content : string) :
  (∃ items,
     (parser_parse k html_content).1 = Ok items ∧
     Forall nonempty_fields items ∧
     ∀ soup found,
       BeautifulSoup html_content = Ok soup → parser_candidates k soup = Ok found →
       items = flat_map (candidate_items (parser_fields k)
                           (get_site_name (parser_default k) soup)) found) ∧
  (∀ website_name news e,
     parser_fields k news = Raise e →
     candidate_items (parser_fields k) website_name news = []) ∧
  safe_get_text None = Ok "" ∧
  (∀ attr, safe_get_attr None attr = Ok "").
Proof.
  split; [| split; [| split]].
  - destruct (parser_parse_returns k html_content) as (items & evs & -> & _ & Hne & Hall).
    exists items. cbn. eauto.
  - intros website_name news e H. unfold candidate_items. by rewrite H.
  - reflexivity.
  - reflexivity.
Qed.

End ParserProperties.

(** ** The parsers on the example page *)

(** The broken card and the card without a title are left out, the two
    complete cards are returned in order. *)
Example parse_page :
  (@parser_parse stub_bs4 Liputan6Parser "<page/>").1
  = Ok [mkNewsItem "SiteA" "T1" "D1" "2023-01-01"; mkNewsItem "SiteA" "T3" "D3" "2023-01-03"].
Proof. vm_compute. reflexivity. Qed.

Example parse_page_events :
  (@parser_parse stub_bs4 Liputan6Parser "<page/>").2
  = [EvLog WARNING (ErrorParsingItem (OtherException "broken element"))].
Proof. vm_compute. reflexivity. Qed.

Example parse_malformed :
  @parser_parse stub_bs4 BisnisParser "<"
  = (Ok [], [EvLog ERROR (ErrorParsingContent "Bisnis" (OtherException "malformed document"))]).
Proof. vm_compute. reflexivity. Qed.

(** ** The scraping thread *)

Section ThreadProperties.
Context {bs4 : BS4}.

Lemma thread_step_at (p : NewsScraping) (pc : thread_pc) :
  thread p = Some pc → thread_step p = scrape_news_step p pc.
Proof. intros H. unfold thread_step. by rewrite H. Qed.

(** The loop of [scrape_news] is left only at its head, with the stop
    event set. *)
Lemma thread_step_alive (p : NewsScraping) :
  thread_alive p = true → stop_event p = false → thread_alive (thread_step p).1 = true.
Proof.
  unfold thread_alive, thread_step. intros Ha Hs.
  destruct (thread p) as [pc |] eqn:Hpc; [| discriminate].
  destruct pc as [| | [| item rest] | [| d rest] | e |]; cbn; rewrite ?Hs; cbn;
    try reflexivity; try discriminate.
  unfold NewsScraping_fetch.
  destruct (HTTPClient_fetch (http_client p) (news_site p)) as [[[[html |] | e] c] evs]; cbn;
    try reflexivity.
  destruct (truthy html); [| reflexivity].
  by destruct (parser_parse (parser p) html) as [[items | e] pevs].
Qed.

Lemma is_log_quiet (evs : list event) : Forall is_log evs → Forall quiet evs.
Proof. intros H. eapply Forall_impl; [exact H | by intros []]. Qed.

Lemma quiet_no_io (evs : list event) :
  Forall quiet evs → puts_of evs = [] ∧ gets_of evs = [] ∧ prints_of evs = [].
Proof.
  induction 1 as [| ev evs Hev _ (IH1 & IH2 & IH3)]; [done |].
  unfold puts_of, gets_of, prints_of in *.
  destruct ev; cbn in *; try done.
Qed.

Lemma fetch_loop_quiet (t m : Z) (url : string) (attempts : list Z) :
  ∀ s, Forall quiet (fetch_loop t m url attempts s).2.
Proof.
  induction attempts as [| attempt rest IH]; intros s; [constructor |].
  cbn [fetch_loop session_get].
  destruct (respond s (sent s) url) as [text | []]; cbn; try by repeat constructor.
  specialize (IH {| respond := respond s; sent := S (sent s); closed := closed s |}).
  destruct (fetch_loop t m url rest _) as [[r s2] evs]. cbn in *.
  repeat constructor. apply Forall_app. split; [| exact IH].
  case_bool_decide; by repeat constructor.
Qed.

Lemma fetch_events_quiet (c : HTTPClient) (url : string) : Forall quiet (fetch_events c url).
Proof.
  unfold fetch_events, HTTPClient_fetch.
  pose proof (fetch_loop_quiet (timeout c) (max_retries c) url (range (max_retries c))
                (session c)) as H.
  by destruct (fetch_loop _ _ _ _ _) as [[r s'] evs].
Qed.

(** The step at [self.fetch()]: the events of [fetch], then the log
    records of [parse] if it is called; the stop event and the queue are
    not touched. *)
Lemma fetch_step (p : NewsScraping) :
  thread p = Some AtFetch →
  ∃ pc pevs,
    thread_step p
      = (set_thread (set_http_client p (HTTPClient_fetch (http_client p) (news_site p)).1.2)
           (Some pc),
         fetch_events (http_client p) (news_site p) ++ pevs) ∧
    Forall is_log pevs ∧
    (∀ e, fetch_result (http_client p) (news_site p) = Raise e → pc = AtExcept e).
Proof.
  intros Hpc. rewrite (thread_step_at p AtFetch Hpc). unfold fetch_events, fetch_result.
  cbn [scrape_news_step].
  unfold NewsScraping_fetch.
  destruct (HTTPClient_fetch (http_client p) (news_site p)) as [[[[html |] | e'] c] evs];
    cbn [fst snd].
  - destruct (truthy html).
    + destruct (parser_parse_returns (parser p) html) as (items & pevs & -> & Hl & _).
      eexists _, pevs. split; [reflexivity |]. split; [exact Hl |]. discriminate.
    + eexists _, []. rewrite app_nil_r. split; [reflexivity |]. split; [constructor |].
      discriminate.
  - eexists _, []. rewrite app_nil_r. split; [reflexivity |]. split; [constructor |].
    discriminate.
  - eexists _, []. rewrite app_nil_r. split; [reflexivity |]. split; [constructor |].
    by intros e [= ->].
Qed.

(** What a step of the thread leaves alone. *)
Lemma thread_step_frame (p : NewsScraping) :
  stop_event (thread_step p).1 = stop_event p ∧
  news_site (thread_step p).1 = news_site p ∧
  interval (thread_step p).1 = interval p ∧
  news_queue p `prefix_of` news_queue (thread_step p).1 ∧
  gets_of (thread_step p).2 = [] ∧ prints_of (thread_step p).2 = [].
Proof.
  destruct (thread p) as [pc |] eqn:Hpc.
  2:{ unfold thread_step. rewrite Hpc. cbn. by repeat split. }
  destruct pc as [| | [| item rest] | [| d rest] | e |].
  2:{ destruct (fetch_step p Hpc) as (pc & pevs & -> & Hl & _). cbn.
      assert (Forall quiet (fetch_events (http_client p) (news_site p) ++ pevs)) as Hq.
      { apply Forall_app. split; [apply fetch_events_quiet | by apply is_log_quiet]. }
      apply quiet_no_io in Hq. by repeat split; try tauto. }
  all: rewrite (thread_step_at p _ Hpc); cbn [scrape_news_step].
  all: destruct (stop_event p) eqn:Hs; cbn; rewrite ?Hs; repeat split; try done.
  by apply prefix_app_r.
Qed.

(** C6.  When the [try] of a cycle raises an exception [e] (the step at
    [self.fetch()] ends in the handler), the thread logs the error, sleeps
    five seconds and is back at the head of the loop; with the stop event
    unset it then enters the next cycle, at [self.fetch()] again, with the
    queue as it was, and its next step calls [fetch].  In general no step
    ends the loop while the thread is alive and the stop event is unset. *)
Theorem scrape_news_survives (p : NewsScraping) (e : exn) :
  (thread p = Some AtFetch → stop_event p = false →
   thread (thread_step p).1 = Some (AtExcept e) →
   ∃ p3,
     thread_steps 3 p
       = (p3, (thread_step p).2
                ++ [EvLog ERROR (ErrorScraping (news_site p) e); EvSleep 5]) ∧
     thread p3 = Some AtFetch ∧ thread_alive p3 = true ∧
     stop_event p3 = false ∧ news_queue p3 = news_queue p ∧
     ∃ pevs, (thread_step p3).2 = fetch_events (http_client p3) (news_site p3) ++ pevs) ∧
  (thread_alive p = true → stop_event p = false →
   thread_alive (thread_step p).1 = true).
Proof.
  split; [| apply thread_step_alive].
  intros Hpc Hs Hraise.
  destruct (fetch_step p Hpc) as (pc & pevs & H1 & _ & _).
  rewrite H1 in Hraise |- *. cbn in Hraise. injection Hraise as ->.
  cbn [thread_steps]. rewrite H1.
  unfold thread_step at 1. cbn [set_thread thread scrape_news_step].
  unfold thread_step at 1. cbn [set_thread set_http_client thread scrape_news_step stop_event].
  rewrite Hs. cbn [news_site]. rewrite !app_nil_r.
  eexists. split; [reflexivity |]. repeat split; try exact Hs.
  match goal with
  | |- ∃ _, (thread_step ?q).2 = _ =>
      destruct (fetch_step q eq_refl) as (pc' & pevs' & H3 & _)
  end.
  rewrite H3. by exists pevs'.
Qed.

End ThreadProperties.

(** ** Waits and the stop event *)

Section SuspensionProperties.
Context {bs4 : BS4}.

(** C7, amended.  The interval sleep is interruptible: it is slept one
    second at a time with the stop event read before each second, and no
    second is slept once the event is set.  The tick of the aggregator is
    a plain one-second sleep, after which the loop condition reads the
    stop events again and leaves the loop without sleeping when all are
    set; no step of the aggregator sleeps more than one second.  The
    backoff waits of [fetch] are not interruptible: the step at
    [self.fetch()] does the same whatever the stop event, and sleeps all
    the backoff waits of the call; the five-second pause after a failed
    cycle is slept in full as well. *)
Theorem suspensions (p : NewsScraping) (s : System) :
  (∀ rounds, thread p = Some (AtSleep rounds) → stop_event p = true →
     thread_step p = (set_thread p (Some AtLoopHead), [])) ∧
  (∀ d rounds, thread p = Some (AtSleep (d :: rounds)) → stop_event p = false →
     thread_step p = (set_thread p (Some (AtSleep rounds)), [EvSleep 1])) ∧
  (main s = AtTick →
   main_step s = (mkSystem (news_scrapers s) (seen_news s) AtLoopCheck, [EvSleep 1])) ∧
  (main s = AtLoopCheck → forallb stop_event (news_scrapers s) = true →
   main_step s = (mkSystem (news_scrapers s) (seen_news s) (AtCleanup 0), [])) ∧
  sleep_time (main_step s).2 <= 1 ∧
  (∀ b, thread p = Some AtFetch →
     (thread_step (set_stop_event p b)).2 = (thread_step p).2 ∧
     sleeps_of (thread_step p).2 = backoff_waits (http_client p) (news_site p)) ∧
  (∀ e, thread p = Some (AtExcept e) → sleeps_of (thread_step p).2 = [5]).
Proof.
  split; [| split; [| split; [| split; [| split; [| split]]]]].
  - intros rounds Hpc Hs. rewrite (thread_step_at p _ Hpc).
    destruct rounds; cbn; by rewrite ?Hs.
  - intros d rounds Hpc Hs. rewrite (thread_step_at p _ Hpc). cbn. by rewrite Hs.
  - intros Hm. unfold main_step. by rewrite Hm.
  - intros Hm Hall. unfold main_step. by rewrite Hm, Hall.
  - unfold main_step.
    destruct (main s) as [| i | | i | i |]; cbn.
    + by destruct (forallb stop_event (news_scrapers s)).
    + destruct (news_scrapers s !! i) as [q |]; [| done].
      destruct (news_queue q) as [| news rest]; [done |].
      unfold consume. by case_bool_decide.
    + done.
    + destruct (news_scrapers s !! i) as [q |]; [| done].
      unfold stop_thread_begin, stop_thread_end.
      destruct (thread q) as [pc |] eqn:Hq; cbn; [done |].
      unfold thread_alive. cbn. by rewrite Hq.
    + destruct (news_scrapers s !! i) as [q |]; [| done].
      unfold stop_thread_end. by destruct (thread_alive q).
    + done.
  - intros b Hpc. split.
    + rewrite (thread_step_at p _ Hpc).
      rewrite (thread_step_at (set_stop_event p b) AtFetch) by exact Hpc.
      cbn [scrape_news_step]. unfold NewsScraping_fetch. cbn [http_client news_site set_stop_event].
      destruct (HTTPClient_fetch (http_client p) (news_site p)) as [[[[html |] | e'] c] evs];
        cbn; try reflexivity.
      destruct (truthy html); [| reflexivity].
      by destruct (parser_parse (parser p) html) as [[items | e'] pevs].
    + destruct (fetch_step p Hpc) as (pc & pevs & -> & Hl & _). cbn.
      rewrite sleeps_of_app. unfold backoff_waits.
      assert (sleeps_of pevs = []) as ->; [| by rewrite app_nil_r].
      clear -Hl. induction Hl as [| ev evs Hev _ IH]; [done |].
      destruct ev; cbn in *; done.
  - intros e Hpc. by rewrite (thread_step_at p _ Hpc).
Qed.

(** ** Pushing a batch *)

Lemma thread_step_no_put (p : NewsScraping) :
  stop_event p = true → puts_of (thread_step p).2 = [] ∧ news_queue (thread_step p).1 = news_queue p.
Proof.
  intros Hs.
  destruct (thread p) as [pc |] eqn:Hpc.
  2:{ unfold thread_step. by rewrite Hpc. }
  destruct pc as [| | [| item rest] | [| d rest] | e |].
  2:{ destruct (fetch_step p Hpc) as (pc & pevs & -> & Hl & _). cbn.
      assert (Forall quiet (fetch_events (http_client p) (news_site p) ++ pevs)) as Hq.
      { apply Forall_app. split; [apply fetch_events_quiet | by apply is_log_quiet]. }
      apply quiet_no_io in Hq. tauto. }
  all: rewrite (thread_step_at p _ Hpc); cbn [scrape_news_step]; rewrite ?Hs; by cbn.
Qed.

(** A batch pushed with the stop event unset goes to the queue in order. *)
Lemma push_batch_unset (pushed : list NewsItem) :
  ∀ (p : NewsScraping) (rest : list NewsItem),
    thread p = Some (AtPush (pushed ++ rest)) → stop_event p = false →
    thread_steps (length pushed) p
      = (set_thread (set_news_queue p (news_queue p ++ pushed)) (Some (AtPush rest)),
         EvPut (news_site p) <$> pushed).
Proof.
  induction pushed as [| item pushed IH]; intros p rest Hpc Hs.
  - cbn. rewrite app_nil_r. destruct p; cbn in *. by rewrite Hpc.
  - cbn [length thread_steps]. rewrite (thread_step_at p _ Hpc).
    cbn [app scrape_news_step]. rewrite Hs. cbn [negb].
    rewrite (IH _ rest) by done. cbn. by rewrite <- app_assoc.
Qed.

(** A batch met with the stop event set is dropped item by item. *)
Lemma push_batch_set (dropped : list NewsItem) :
  ∀ p : NewsScraping,
    thread p = Some (AtPush dropped) → stop_event p = true →
    thread_steps (length dropped) p = (set_thread p (Some (AtPush [])), []).
Proof.
  induction dropped as [| item dropped IH]; intros p Hpc Hs.
  - cbn. destruct p; cbn in *. by rewrite Hpc.
  - cbn [length thread_steps]. rewrite (thread_step_at p _ Hpc).
    cbn [scrape_news_step]. rewrite Hs. cbn [negb].
    by rewrite (IH _) by done.
Qed.

End SuspensionProperties.

(** ** Runs of the whole process *)

Section RunProperties.
Context {bs4 : BS4}.

Lemma run_cons (a : action) (sch : list action) (s : System) :
  run (a :: sch) s
  = (((run sch (step a s).1).1),
     ((fun e => (a, e)) <$> (step a s).2) ++ (run sch (step a s).1).2).
Proof.
  cbn [run]. destruct (step a s) as [s1 evs]. cbn [fst snd].
  by destruct (run sch s1) as [s2 evs'].
Qed.



Lemma events_of_scraper_tag (i : nat) (a : action) (evs : list event) :
  events_of_scraper i ((fun e => (a, e)) <$> evs)
  = if bool_decide (a = RunScraper i) then evs else [].
Proof.
  unfold events_of_scraper.
  induction evs as [| ev evs IH]; [by case_bool_decide |].
  cbn. rewrite IH. destruct a; cbn; try (by rewrite bool_decide_eq_false_2).
  repeat case_bool_decide; congruence.
Qed.

Lemma puts_of_app (l1 l2 : list event) : puts_of (l1 ++ l2) = puts_of l1 ++ puts_of l2.
Proof. apply omap_app. Qed.


Lemma gets_of_app (l1 l2 : list event) : gets_of (l1 ++ l2) = gets_of l1 ++ gets_of l2.
Proof. apply omap_app. Qed.


(** After an update of the scraper at [j], the scraper at [i] is the old
    one or, when [i = j], the new one. *)
Lemma lookup_updated (l : list NewsScraping) (i j : nat) (p q q' : NewsScraping) :
  l !! i = Some p → l !! j = Some q →
  ∃ p', <[j := q']> l !! i = Some p' ∧ ((i ≠ j ∧ p' = p) ∨ (i = j ∧ p = q ∧ p' = q')).
Proof.
  intros Hi Hj. destruct (decide (i = j)) as [-> | Hne].
  - exists q'. split; [apply list_lookup_insert_eq; by eapply lookup_lt_Some |].
    right. repeat split. congruence.
  - exists p. split; [by rewrite list_lookup_insert_ne |]. by left.
Qed.

Ltac updated_scraper Hi Hj :=
  match goal with
  | |- context [<[?j := ?q']> ?l !! ?i] =>
      let p' := fresh "p'" in
      destruct (lookup_updated l i j _ _ q' Hi Hj) as (p' & -> & [[_ ->] | (_ & <- & ->)])
  end.

(** A step of the main thread never clears a stop event. *)
Lemma main_step_keeps_stop (s : System) (i : nat) (p : NewsScraping) :
  news_scrapers s !! i = Some p → stop_event p = true →
  ∃ p', news_scrapers (main_step s).1 !! i = Some p' ∧ stop_event p' = true.
Proof.
  intros Hi Hs. unfold main_step.
  destruct (main s) as [| j | | j | j |]; cbn.
  - destruct (forallb stop_event (news_scrapers s)); eauto.
  - destruct (news_scrapers s !! j) as [q |] eqn:Hj; [| eauto].
    destruct (news_queue q) as [| news rest]; [eauto |].
    destruct (consume (seen_news s) news) as [seen evs]. cbn.
    updated_scraper Hi Hj; eauto.
  - eauto.
  - destruct (news_scrapers s !! j) as [q |] eqn:Hj; [| eauto].
    destruct (thread q); cbn; updated_scraper Hi Hj; eauto.
  - destruct (news_scrapers s !! j) as [q |] eqn:Hj; [| eauto].
    cbn. updated_scraper Hi Hj; eauto.
  - eauto.
Qed.

Lemma tagged_not_restart (a : action) (i : nat) (evs : list event) :
  a ≠ CallStart i → Forall (fun ae => is_restart i ae = false) ((fun e => (a, e)) <$> evs).
Proof.
  intros Ha. apply Forall_fmap, Forall_forall. intros ev _. cbn.
  destruct a as [| j | | j | j]; try done.
  destruct ev as [| | [] [] | | | | |]; try done.
  apply bool_decide_eq_false_2. congruence.
Qed.

Lemma tagged_other_thread (a : action) (i : nat) (evs : list event) :
  a ≠ RunScraper i → puts_of (events_of_scraper i ((fun e => (a, e)) <$> evs)) = [].
Proof. intros Ha. by rewrite events_of_scraper_tag, bool_decide_eq_false_2. Qed.

(** Every action but a real restart of scraper [i] keeps its stop event
    set, and its thread puts nothing while the event is set. *)
Lemma step_keeps_stop (a : action) (s : System) (i : nat) (p : NewsScraping) :
  news_scrapers s !! i = Some p → stop_event p = true →
  (∃ p', news_scrapers (step a s).1 !! i = Some p' ∧ stop_event p' = true ∧
         Forall (fun ae => is_restart i ae = false) ((fun e => (a, e)) <$> (step a s).2) ∧
         puts_of (events_of_scraper i ((fun e => (a, e)) <$> (step a s).2)) = []) ∨
  (∃ ev rest, (fun e => (a, e)) <$> (step a s).2 = ev :: rest ∧ is_restart i ev = true).
Proof.
  intros Hi Hs.
  destruct a as [| j | | j | j]; cbn [step].
  - left. destruct (main_step_keeps_stop s i p Hi Hs) as (p' & Hp' & Hs').
    exists p'. split; [done |]. split; [done |].
    split; [by apply tagged_not_restart | by apply tagged_other_thread].
  - left. unfold on_scraper.
    destruct (news_scrapers s !! j) as [q |] eqn:Hj.
    2:{ exists p. split; [done |]. split; [done |]. split; [constructor | done]. }
    destruct (thread_step q) as [q' evs] eqn:Hstep. cbn [fst snd news_scrapers].
    pose proof (thread_step_frame q) as (Hf & _). rewrite Hstep in Hf. cbn in Hf.
    destruct (lookup_updated _ i j p q q' Hi Hj)
      as (p' & Hp' & [[Hne Hp] | (Hij & Hpq & Hp)]); exists p'; subst.
    + split; [done |]. split; [done |].
      split; [by apply tagged_not_restart |]. apply tagged_other_thread. congruence.
    + split; [done |]. split; [congruence |].
      split; [by apply tagged_not_restart |].
      rewrite events_of_scraper_tag, bool_decide_eq_true_2 by done.
      pose proof (thread_step_no_put q Hs) as [Hp _]. by rewrite Hstep in Hp.
  - left. exists p.
    split; [unfold main_interrupt; by destruct (main s) |]. split; [done |].
    split; [by apply tagged_not_restart | by apply tagged_other_thread].
  - unfold on_scraper.
    destruct (news_scrapers s !! j) as [q |] eqn:Hj.
    2:{ left. exists p. split; [done |]. split; [done |]. split; [constructor | done]. }
    unfold start_thread. destruct (thread_alive q) eqn:Ha; cbn [fst snd news_scrapers].
    + left. rewrite list_insert_id by done. exists p.
      split; [done |]. split; [done |].
      split; [by repeat constructor | by apply tagged_other_thread].
    + destruct (decide (i = j)) as [-> | Hne].
      * right. eexists _, _. split; [reflexivity |]. cbn. by rewrite bool_decide_eq_true_2.
      * left. exists p. rewrite list_lookup_insert_ne by done.
        split; [done |]. split; [done |].
        split; [apply tagged_not_restart; congruence | by apply tagged_other_thread].
  - left. unfold on_scraper.
    destruct (news_scrapers s !! j) as [q |] eqn:Hj.
    2:{ exists p. split; [done |]. split; [done |]. split; [constructor | done]. }
    cbn [fst snd news_scrapers].
    destruct (lookup_updated _ i j p q (set_stop_event q true) Hi Hj)
      as (p' & Hp' & [[_ ->] | (_ & <- & ->)]); eexists;
      (split; [exact Hp' |]; split; [done |]; split; [constructor | done]).
Qed.



End RunProperties.

(** ** Deduplication *)

Section DedupProperties.
Context {bs4 : BS4}.

Lemma io_of_app (l1 l2 : list event) : io_of (l1 ++ l2) = io_of l1 ++ io_of l2.
Proof. apply omap_app. Qed.

Lemma events_app (tr1 tr2 : list (action * event)) :
  events (tr1 ++ tr2) = events tr1 ++ events tr2.
Proof. apply fmap_app. Qed.

Lemma events_tag (a : action) (evs : list event) : events ((fun e => (a, e)) <$> evs) = evs.
Proof. unfold events. rewrite <- list_fmap_compose. apply list_fmap_id. Qed.

Lemma io_of_gets (evs : list event) : gets_of (io_of evs) = gets_of evs.
Proof.
  unfold gets_of, io_of. induction evs as [| ev evs IH]; [done |].
  destruct ev; cbn; by rewrite ?IH.
Qed.

Lemma io_of_prints (evs : list event) : prints_of (io_of evs) = prints_of evs.
Proof.
  unfold prints_of, io_of. induction evs as [| ev evs IH]; [done |].
  destruct ev; cbn; by rewrite ?IH.
Qed.

Lemma io_of_quiet (evs : list event) : Forall quiet evs → io_of evs = [].
Proof.
  unfold io_of. induction 1 as [| ev evs Hev _ IH]; [done |].
  destruct ev; cbn in *; done.
Qed.

Lemma thread_step_io (p : NewsScraping) : io_of (thread_step p).2 = [].
Proof.
  destruct (thread p) as [pc |] eqn:Hpc.
  2:{ unfold thread_step. by rewrite Hpc. }
  destruct pc as [| | [| item rest] | [| d rest] | e |].
  2:{ destruct (fetch_step p Hpc) as (pc & pevs & -> & Hl & _). cbn.
      apply io_of_quiet, Forall_app.
      split; [apply fetch_events_quiet | by apply is_log_quiet]. }
  all: rewrite (thread_step_at p _ Hpc); cbn [scrape_news_step].
  all: by destruct (stop_event p).
Qed.

Lemma step_not_main_silent (a : action) (s : System) : a ≠ RunMain → silent s a.
Proof.
  intros Ha. unfold silent.
  destruct a as [| j | | j | j]; [done | | | |]; cbn [step]; unfold on_scraper.
  - destruct (news_scrapers s !! j) as [q |]; [| done].
    pose proof (thread_step_io q) as H. by destruct (thread_step q) as [q' evs].
  - unfold main_interrupt. by destruct (main s).
  - destruct (news_scrapers s !! j) as [q |]; [| done].
    unfold start_thread. by destruct (thread_alive q).
  - by destruct (news_scrapers s !! j) as [q |].
Qed.

(** A step of the main thread is silent or dequeues one item, which it
    prints and records exactly when its tuple is not in the set. *)
Lemma main_step_io (s : System) :
  silent s RunMain ∨
  ∃ news,
    (news_tuple news ∈ seen_news s ∧ io_of (main_step s).2 = [EvGet news] ∧
     seen_news (main_step s).1 = seen_news s) ∨
    ((news_tuple news ∉ seen_news s) ∧ io_of (main_step s).2 = [EvGet news; EvPrint news] ∧
     seen_news (main_step s).1 = seen_news s ∪ {[news_tuple news]}).
Proof.
  unfold silent. cbn [step]. unfold main_step.
  destruct (main s) as [| i | | i | i |].
  - left. by destruct (forallb stop_event (news_scrapers s)).
  - destruct (news_scrapers s !! i) as [q |]; [| by left].
    destruct (news_queue q) as [| news rest]; [by left |].
    right. exists news. unfold consume.
    case_bool_decide; [left | right]; by cbn.
  - by left.
  - left. destruct (news_scrapers s !! i) as [q |]; [| done].
    unfold stop_thread_begin, stop_thread_end.
    destruct (thread q) eqn:Hq; cbn; [done |].
    unfold thread_alive; cbn. by rewrite Hq.
  - left. destruct (news_scrapers s !! i) as [q |]; [| done].
    unfold stop_thread_end. by destruct (thread_alive q).
  - by left.
Qed.

(** The invariant of the aggregator along any schedule. *)
Lemma run_dedup (sch : list action) :
  ∀ (s : System) (earlier : list (string * string * string * string)),
    seen_news s = list_to_set earlier →
    io_of (events (run sch s).2)
      = deliveries_after earlier (gets_of (events (run sch s).2)) ∧
    seen_news (run sch s).1
      = list_to_set (news_tuple <$> gets_of (events (run sch s).2)) ∪ seen_news s.
Proof.
  induction sch as [| a sch IH]; intros s earlier Hseen.
  { cbn. split; [done |]. by rewrite (left_id_L ∅ (∪)). }
  rewrite run_cons. cbn [fst snd].
  rewrite events_app, events_tag, io_of_app, gets_of_app.
  rewrite <- (io_of_gets (step a s).2).
  assert (silent s a ∨ a = RunMain) as [[Hio Hs] | ->].
  { destruct (decide (a = RunMain)); [by right | left; by apply step_not_main_silent]. }
  - assert (seen_news (step a s).1 = list_to_set earlier) as Hseen' by congruence.
    destruct (IH _ _ Hseen') as [IH1 IH2].
    rewrite Hio, IH1, IH2, Hs. by cbn.
  - destruct (main_step_io s) as [[Hio Hs] | (news & [(Hin & Hio & Hs) | (Hin & Hio & Hs)])];
      cbn [step] in *.
    + assert (seen_news (main_step s).1 = list_to_set earlier) as Hseen' by congruence.
      destruct (IH _ _ Hseen') as [IH1 IH2].
      rewrite Hio, IH1, IH2, Hs. by cbn.
    + assert (seen_news (main_step s).1 = list_to_set earlier) as Hseen' by congruence.
      destruct (IH _ _ Hseen') as [IH1 IH2].
      rewrite Hio, IH1, IH2, Hs.
      cbn. rewrite bool_decide_eq_true_2.
      2:{ rewrite Hseen in Hin. by apply elem_of_list_to_set in Hin. }
      split; [done |].
      apply set_eq. intros t. rewrite !elem_of_union, elem_of_singleton.
      split; [tauto |]. intros [[-> | H] | H]; tauto.
    + assert (seen_news (main_step s).1 = list_to_set (news_tuple news :: earlier)) as Hseen'.
      { rewrite Hs, Hseen, list_to_set_cons. apply (comm_L (∪)). }
      destruct (IH _ _ Hseen') as [IH1 IH2].
      rewrite Hio, IH1, IH2, Hs.
      cbn. rewrite bool_decide_eq_false_2.
      2:{ rewrite Hseen in Hin. by rewrite elem_of_list_to_set in Hin. }
      split; [done |].
      apply set_eq. intros t. rewrite !elem_of_union, !elem_of_singleton. tauto.
Qed.

(** Properties of the expected deliveries. *)
Lemma prints_of_deliveries (arrivals : list NewsItem) :
  ∀ earlier,
    prints_of (deliveries_after earlier arrivals) = first_arrivals_after earlier arrivals.
Proof.
  induction arrivals as [| news rest IH]; intros earlier; [done |].
  cbn. case_bool_decide; cbn; by rewrite IH.
Qed.





End DedupProperties.

(** ** Leaving the loop *)

Section ExitProperties.
Context {bs4 : BS4}.

Lemma queues_kept_same (s s' : System) :
  news_scrapers s' = news_scrapers s → queues_kept s s'.
Proof. intros H i p Hi. exists p. by rewrite H. Qed.

Lemma queues_kept_refl (s : System) : queues_kept s s.
Proof. by apply queues_kept_same. Qed.

Lemma queues_kept_trans (s1 s2 s3 : System) :
  queues_kept s1 s2 → queues_kept s2 s3 → queues_kept s1 s3.
Proof.
  intros H12 H23 i p Hi.
  destruct (H12 i p Hi) as (p2 & Hi2 & Hp2).
  destruct (H23 i p2 Hi2) as (p3 & Hi3 & Hp3).
  exists p3. split; [done |]. by etrans.
Qed.

Lemma queues_kept_update (s : System) (j : nat) (q q' : NewsScraping) seen pc :
  news_scrapers s !! j = Some q → news_queue q `prefix_of` news_queue q' →
  queues_kept s (mkSystem (<[j := q']> (news_scrapers s)) seen pc).
Proof.
  intros Hj Hq i p Hi. cbn.
  destruct (lookup_updated _ i j p q q' Hi Hj) as (p' & -> & [[_ ->] | (_ & <- & ->)]);
    eauto.
Qed.

Lemma on_scraper_queues (s : System) (j : nat) f :
  (∀ q, news_queue q `prefix_of` news_queue (f q).1) →
  queues_kept s (on_scraper j f s).1 ∧ main (on_scraper j f s).1 = main s.
Proof.
  intros Hf. unfold on_scraper.
  destruct (news_scrapers s !! j) as [q |] eqn:Hj; [| split; [apply queues_kept_refl | done]].
  specialize (Hf q). destruct (f q) as [q' evs]. cbn.
  split; [by apply (queues_kept_update s j q q') | done].
Qed.

Lemma main_step_silent_after_loop (s : System) : left_loop s → silent s RunMain.
Proof.
  unfold silent, left_loop. cbn [step]. unfold main_step.
  destruct (main s) as [| i | | i | i |]; try done; intros _.
  - destruct (news_scrapers s !! i) as [q |]; [| done].
    unfold stop_thread_begin, stop_thread_end.
    destruct (thread q) eqn:Hq; cbn; [done |].
    unfold thread_alive; cbn. by rewrite Hq.
  - destruct (news_scrapers s !! i) as [q |]; [| done].
    unfold stop_thread_end. by destruct (thread_alive q).
Qed.

(** Once the loop is left, no action gets or prints an item, changes
    [seen_news] or takes an item from a queue. *)
Lemma step_after_loop (a : action) (s : System) :
  left_loop s →
  left_loop (step a s).1 ∧ silent s a ∧ queues_kept s (step a s).1.
Proof.
  intros Hl. destruct a as [| j | | j | j].
  - assert (left_loop (main_step s).1 ∧ queues_kept s (main_step s).1) as [H1 H2].
    { unfold left_loop in *. unfold main_step.
      destruct (main s) as [| i | | i | i |] eqn:Hm; try done.
      - destruct (news_scrapers s !! i) as [q |] eqn:Hi; [| split; [done | by apply queues_kept_same]].
        unfold stop_thread_begin. destruct (thread q); cbn.
        + split; [done |]. by apply (queues_kept_update s i q).
        + split; [done |]. by apply (queues_kept_update s i q).
      - destruct (news_scrapers s !! i) as [q |] eqn:Hi; [| split; [done | by apply queues_kept_same]].
        cbn. split; [done |]. by apply (queues_kept_update s i q).
      - cbn. rewrite Hm. split; [done | apply queues_kept_refl]. }
    split; [done |]. split; [by apply main_step_silent_after_loop | done].
  - split; [| split; [by apply step_not_main_silent |]]; cbn [step].
    + unfold left_loop.
      by rewrite (proj2 (on_scraper_queues s j thread_step
                           (fun q => proj1 (proj2 (proj2 (proj2 (thread_step_frame q))))))).
    + apply on_scraper_queues. intros q. apply thread_step_frame.
  - split; [| split; [by apply step_not_main_silent |]]; cbn [step].
    + unfold left_loop, main_interrupt in *.
      destruct (main s) eqn:Hm; cbn; try done. by rewrite Hm.
    + unfold main_interrupt. by destruct (main s); apply queues_kept_same.
  - assert (∀ q, news_queue q `prefix_of` news_queue (start_thread q).1) as Hf.
    { intros q. unfold start_thread. by destruct (thread_alive q). }
    split; [| split; [by apply step_not_main_silent |]]; cbn [step].
    + unfold left_loop. by rewrite (proj2 (on_scraper_queues s j start_thread Hf)).
    + by apply on_scraper_queues.
  - assert (∀ q, news_queue q `prefix_of`
                   news_queue ((fun p => (set_stop_event p true, @nil event)) q).1) as Hf.
    { by intros q. }
    split; [| split; [by apply step_not_main_silent |]]; cbn [step].
    + unfold left_loop. by rewrite (proj2 (on_scraper_queues s j _ Hf)).
    + by apply on_scraper_queues.
Qed.

Lemma run_after_loop (sch : list action) :
  ∀ s : System,
    left_loop s →
    io_of (events (run sch s).2) = [] ∧
    seen_news (run sch s).1 = seen_news s ∧
    queues_kept s (run sch s).1.
Proof.
  induction sch as [| a sch IH]; intros s Hl.
  { cbn. split; [done |]. split; [done | apply queues_kept_refl]. }
  rewrite run_cons. cbn [fst snd].
  destruct (step_after_loop a s Hl) as (Hl' & [Hio Hs] & Hq).
  destruct (IH _ Hl') as (IH1 & IH2 & IH3).
  rewrite events_app, events_tag, io_of_app, Hio, IH1, IH2.
  split; [done |]. split; [done |]. by eapply queues_kept_trans.
Qed.

(** C10.  When the stop events of all the scrapers are set at the loop
    condition, the main thread leaves the loop at once, for [finally],
    without touching a queue; and from then on, along every schedule,
    nothing is dequeued, nothing is printed, [seen_news] does not change
    and every item that was in a queue is still there. *)
Theorem loop_exit_leaves_queues (s : System) :
  main s = AtLoopCheck → forallb stop_event (news_scrapers s) = true →
  main_step s = (mkSystem (news_scrapers s) (seen_news s) (AtCleanup 0), []) ∧
  ∀ sch,
    gets_of (events (run sch (main_step s).1).2) = [] ∧
    prints_of (events (run sch (main_step s).1).2) = [] ∧
    seen_news (run sch (main_step s).1).1 = seen_news s ∧
    queues_kept s (run sch (main_step s).1).1.
Proof.
  intros Hm Hall.
  assert (main_step s = (mkSystem (news_scrapers s) (seen_news s) (AtCleanup 0), [])) as ->.
  { unfold main_step. by rewrite Hm, Hall. }
  split; [done |]. intros sch. cbn [fst].
  destruct (run_after_loop sch (mkSystem (news_scrapers s) (seen_news s) (AtCleanup 0)))
    as (Hio & Hseen & Hq); [done |].
  rewrite <- io_of_gets, <- io_of_prints, Hio. done.
Qed.

End ExitProperties.

(** * Examples and instances *)

(** Two scrapers that extract the same two items; the second batch is
    dropped by the aggregator. *)
Example two_scrapers_one_print :
  let s := main_thread [scraper_at page_network "https://www.liputan6.com/" false AtLoopHead;
                        scraper_at page_network "https://www.liputan6.com/" false AtLoopHead] in
  let sch := replicate 4 (RunScraper 0) ++ replicate 4 (RunScraper 1) ++ replicate 9 RunMain in
  let r := @run stub_bs4 sch s in
  gets_of (events r.2) = [item1; item3; item1; item3] ∧
  prints_of (events r.2) = [item1; item3] ∧
  main r.1 = AtLoopCheck.
Proof. vm_compute. done. Qed.

(** C7 as the spec words it fails on the backoff waits:
    a scraper is built and started, its thread passes the loop condition,
    the stop event is then set, and the next step of the thread, the call
    of [fetch] over a network that times out, still sleeps its backoff
    waits of one and two seconds. *)
Lemma backoff_ignores_stop :
  let site := "https://www.bisnis.com/" in
  ∃ p0, NewsScraping_init dead_network site 2 = Ok p0 ∧
  let sch := [CallStart 0; RunScraper 0; CallStop 0] in
  let s := (@run stub_bs4 sch (main_thread [p0])).1 in
  ∃ p, news_scrapers s !! 0%nat = Some p ∧
       stop_event p = true ∧ thread p = Some AtFetch ∧
       sleeps_of (@thread_step stub_bs4 p).2 = [1; 2] ∧
       ¬ (sleep_time (@thread_step stub_bs4 p).2 <= 1).
Proof.
  intros site. eexists. split; [reflexivity |].
  intros sch s. eexists. split; [reflexivity |].
  split; [reflexivity |]. split; [reflexivity |]. split; [reflexivity |].
  vm_compute. intros H. apply H. reflexivity.
Qed.

Lemma suspensions_witness :
  let sleeping b := scraper_at dead_network "https://www.bisnis.com/" b (AtSleep [0; 1]) in
  let fetching b := scraper_at dead_network "https://www.bisnis.com/" b AtFetch in
  let failed :=
    scraper_at dead_network "https://www.bisnis.com/" true (AtExcept (OtherException "x")) in
  let s pc := mkSystem [sleeping true] ∅ pc in
  @thread_step stub_bs4 (sleeping true) = (set_thread (sleeping true) (Some AtLoopHead), []) ∧
  @thread_step stub_bs4 (sleeping false)
    = (set_thread (sleeping false) (Some (AtSleep [1])), [EvSleep 1]) ∧
  @main_step (s AtTick) = (s AtLoopCheck, [EvSleep 1]) ∧
  @main_step (s AtLoopCheck) = (s (AtCleanup 0), []) ∧
  (@thread_step stub_bs4 (fetching true)).2 = (@thread_step stub_bs4 (fetching false)).2 ∧
  sleeps_of (@thread_step stub_bs4 (fetching true)).2 = [1; 2] ∧
  sleeps_of (@thread_step stub_bs4 failed).2 = [5].
Proof.
  intros sleeping fetching failed s.
  pose proof (@suspensions stub_bs4) as H.
  split; [apply (proj1 (H (sleeping true) (s AtTick)) [0; 1]); reflexivity |].
  split; [apply (proj1 (proj2 (H (sleeping false) (s AtTick))) 0 [1]); reflexivity |].
  split; [apply (proj1 (proj2 (proj2 (H (sleeping true) (s AtTick))))); reflexivity |].
  split.
  { apply (proj1 (proj2 (proj2 (proj2 (H (sleeping true) (s AtLoopCheck)))))); reflexivity. }
  destruct (proj1 (proj2 (proj2 (proj2 (proj2 (proj2 (H (fetching false) (s AtTick)))))))
              true eq_refl) as [H1 H2].
  split; [exact H1 |]. split; [exact (eq_trans (f_equal sleeps_of H1) H2) |].
  apply (proj2 (proj2 (proj2 (proj2 (proj2 (proj2 (H failed (s AtTick)))))))
           (OtherException "x")).
  reflexivity.
Defined.

Lemma scrape_news_survives_witness :
  let p := scraper_at faulty_network "https://www.liputan6.com/" false AtFetch in
  let e := OtherException "decoding failed" in
  (∃ p3,
     @thread_steps stub_bs4 3 p
       = (p3, (@thread_step stub_bs4 p).2
                ++ [EvLog ERROR (ErrorScraping (news_site p) e); EvSleep 5]) ∧
     thread p3 = Some AtFetch ∧ thread_alive p3 = true ∧
     stop_event p3 = false ∧ news_queue p3 = news_queue p ∧
     ∃ pevs, (@thread_step stub_bs4 p3).2
             = fetch_events (http_client p3) (news_site p3) ++ pevs) ∧
  thread_alive (@thread_step stub_bs4 p).1 = true.
Proof.
  intros p e. split.
  - apply (proj1 (@scrape_news_survives stub_bs4 p e)); reflexivity.
  - apply (proj2 (@scrape_news_survives stub_bs4 p e)); reflexivity.
Defined.

(** After the failed cycle the same thread fetches again and pushes the
    items of the page. *)
Example failed_cycle_then_items :
  let p := scraper_at faulty_network "https://www.liputan6.com/" false AtFetch in
  puts_of (@thread_steps stub_bs4 6 p).2 = [item1; item3].
Proof. vm_compute. reflexivity. Qed.


(** A stop during a batch: the first item is on the queue, the second is
    never put, and the thread ends. *)
Example stop_mid_batch :
  let p := scraper_at page_network "https://www.liputan6.com/" false AtLoopHead in
  let sch := [RunScraper 0; RunScraper 0; RunScraper 0; CallStop 0]
               ++ replicate 6 (RunScraper 0) in
  let r := @run stub_bs4 sch (main_thread [p]) in
  puts_of (events r.2) = [item1] ∧
  (thread <$> news_scrapers r.1 !! 0%nat) = Some (Some Finished).
Proof. vm_compute. done. Qed.

Lemma loop_exit_leaves_queues_witness :
  let p := mkNewsScraping "https://www.liputan6.com/" 2 [item1; item3] true
             (HTTPClient_default page_network) Liputan6Parser (Some (AtPush [])) in
  let s := mkSystem [p] ∅ AtLoopCheck in
  main s = AtLoopCheck ∧ forallb stop_event (news_scrapers s) = true ∧
  @main_step s = (mkSystem [p] ∅ (AtCleanup 0), []) ∧
  ∀ sch,
    gets_of (events (@run stub_bs4 sch (main_step s).1).2) = [] ∧
    prints_of (events (@run stub_bs4 sch (main_step s).1).2) = [] ∧
    seen_news (@run stub_bs4 sch (main_step s).1).1 = ∅ ∧
    queues_kept s (@run stub_bs4 sch (main_step s).1).1.
Proof.
  intros p s. split; [reflexivity |]. split; [reflexivity |].
  apply (@loop_exit_leaves_queues stub_bs4 s); reflexivity.
Defined.

(** The items left in the queue when the loop is left are still there
    when [main_thread] returns. *)
Example items_left_behind :
  let p := mkNewsScraping "https://www.liputan6.com/" 2 [item1; item3] true
             (HTTPClient_default page_network) Liputan6Parser (Some Finished) in
  let r := @run stub_bs4 (replicate 5 RunMain) (mkSystem [p] ∅ AtLoopCheck) in
  main r.1 = Returned ∧ (news_queue <$> news_scrapers r.1 !! 0%nat) = Some [item1; item3] ∧
  prints_of (events r.2) = [].
Proof. vm_compute. done. Qed.

Lemma parse_total_witness :
  (∃ items,
     (@parser_parse stub_bs4 Liputan6Parser "<page/>").1 = Ok items ∧
     Forall nonempty_fields items ∧ items = [item1; item3]) ∧
  @candidate_items stub_bs4 liputan6_fields "SiteA" StubBroken = [].
Proof.
  destruct (@parse_total stub_bs4 Liputan6Parser "<page/>")
    as ((items & Hr & Hne & Hall) & Hskip & _).
  split.
  - exists items. split; [exact Hr |]. split; [exact Hne |].
    rewrite (Hall (Some "SiteA", _) _ eq_refl eq_refl). reflexivity.
  - apply (Hskip "SiteA" StubBroken (OtherException "broken element")). reflexivity.
Defined.

(** * Further properties of the code *)

(** ** fetch under any transport *)

Lemma fetch_loop_definite (t m : Z) (url : string) (rest : list Z) (attempt : Z)
    (s : Session) (r : res string) :
  respond s (sent s) url = r → r ≠ Raise Timeout →
  ∃ evs,
    fetch_loop t m url (attempt :: rest) s = (definite_outcome r, advance s 1, evs) ∧
    requests_of evs = [url] ∧ sleeps_of evs = [].
Proof.
  intros Hr Hne. cbn [fetch_loop session_get]. rewrite Hr.
  assert (advance s 1 = {| respond := respond s; sent := S (sent s); closed := closed s |})
    as ->.
  { unfold advance. f_equal. lia. }
  destruct r as [text | []]; try done; cbn; eauto.
Qed.

(** X1.  When the first [k] requests of a call time out, with
    [k < max_retries], and the next one ends otherwise, [fetch] stops
    there after [k + 1] requests and the [k] backoff waits [2^0], ...,
    [2^(k-1)]: it returns the text of an answer, nothing on a request
    exception, and lets any other exception escape to its caller. *)
Theorem fetch_first_definite (c : HTTPClient) (url : string) (k : nat) (r : res string) :
  Z.of_nat k < max_retries c →
  (∀ i, (i < k)%nat → respond (session c) (sent (session c) + i)%nat url = Raise Timeout) →
  respond (session c) (sent (session c) + k)%nat url = r →
  r ≠ Raise Timeout →
  fetch_result c url = definite_outcome r ∧
  attempts_made c url = S k ∧
  backoff_waits c url = (fun i : nat => 2 ^ Z.of_nat i) <$> seq 0 k ∧
  sent (session (fetch_client c url)) = (sent (session c) + S k)%nat.
Proof.
  intros Hk Hto Hr Hne.
  pose proof (fetch_loop_timeouts (timeout c) (max_retries c) url
                (Z.of_nat k :: (Z.of_nat <$> seq (S k) (Z.to_nat (max_retries c) - S k)))
                k 0 (session c) Hto ltac:(lia)) as H.
  rewrite <- range_split in H by lia.
  destruct (fetch_loop_definite (timeout c) (max_retries c) url
              (Z.of_nat <$> seq (S k) (Z.to_nat (max_retries c) - S k)) (Z.of_nat k)
              (advance (session c) k) r Hr Hne) as (evs & Hloop & Hreq & Hsl).
  rewrite Hloop in H.
  unfold fetch_result, attempts_made, backoff_waits, fetch_events, fetch_client,
    HTTPClient_fetch.
  rewrite H. cbn [fst snd session].
  rewrite requests_of_app, sleeps_of_app, length_app, requests_of_timed_out,
    sleeps_of_timed_out, Hreq, Hsl, app_nil_r.
  cbn. repeat split; lia.
Qed.

Lemma fetch_first_definite_witness :
  let c := HTTPClient_default
             (fun n _ => if bool_decide (n = 0%nat) then Raise Timeout
                         else Raise (ValueError "bad header")) in
  let url := "https://www.bisnis.com/" in
  fetch_result c url = Raise (ValueError "bad header") ∧
  attempts_made c url = 2%nat ∧
  backoff_waits c url = [1] ∧
  sent (session (fetch_client c url)) = 2%nat.
Proof.
  intros c url.
  apply (fetch_first_definite c url 1 (Raise (ValueError "bad header"))).
  - reflexivity.
  - intros [| i] Hi; [reflexivity | lia].
  - reflexivity.
  - discriminate.
Defined.

(** The sum of the first powers of two. *)
Lemma sum_powers_of_two (j : nat) :
  foldr Z.add 0 ((fun i : nat => 2 ^ Z.of_nat i) <$> seq 0 j) = 2 ^ Z.of_nat j - 1.
Proof.
  induction j as [| j IH]; [reflexivity |].
  rewrite seq_S, fmap_app, foldr_app. cbn [fmap list_fmap foldr Nat.add].
  assert (∀ (l : list Z) (z : Z), foldr Z.add z l = foldr Z.add 0 l + z) as Hshift.
  { induction l as [| x l IHl]; intros z; cbn; [lia |]. rewrite (IHl z). lia. }
  rewrite Hshift, IH, Nat2Z.inj_succ, Z.pow_succ_r by lia. lia.
Qed.

(** The loop of [fetch] over the attempts [a], ..., [a + n - 1], the last
    of the budget: no more requests than attempts, and consecutive
    backoff waits, none after the last attempt. *)
Lemma fetch_loop_bounded (t m : Z) (url : string) (n : nat) :
  ∀ (a : nat) (s : Session),
    (n ≠ 0%nat → m = Z.of_nat (a + n)) →
    let evs := (fetch_loop t m url (Z.of_nat <$> seq a n) s).2 in
    (length (requests_of evs) ≤ n)%nat ∧
    ∃ j, sleeps_of evs = (fun i : nat => 2 ^ Z.of_nat i) <$> seq a j ∧ (j ≤ n - 1)%nat.
Proof.
  induction n as [| n IH]; intros a s Hm.
  { cbn. split; [lia |]. exists 0%nat. split; [reflexivity | lia]. }
  cbn [seq fmap list_fmap fetch_loop session_get].
  change (list_fmap nat Z Z.of_nat (seq (S a) n)) with (Z.of_nat <$> seq (S a) n).
  destruct (respond s (sent s) url) as [text | []].
  1,2,4,5: cbn; (split; [lia |]); exists 0%nat; (split; [reflexivity | lia]).
  specialize (IH (S a) {| respond := respond s; sent := S (sent s); closed := closed s |}).
  destruct (fetch_loop t m url (Z.of_nat <$> seq (S a) n) _) as [[r' s2] evs'] eqn:Hloop.
  cbn [snd] in *.
  destruct IH as [Hreq (j & Hsl & Hj)]; [intros Hn; rewrite Hm by done; f_equal; lia |].
  rewrite (Hm ltac:(done)). unfold requests_of, sleeps_of in *.
  case_bool_decide as Hlast.
  - cbn. split; [lia |]. exists (S j). cbn. rewrite Hsl. split; [done | lia].
  - assert (n = 0%nat) as -> by lia. cbn in Hloop. injection Hloop as <- <- <-.
    cbn. split; [lia |]. exists 0%nat. split; [reflexivity | lia].
Qed.

Lemma fetch_limits (c : HTTPClient) (url : string) :
  (attempts_made c url ≤ Z.to_nat (max_retries c))%nat ∧
  (∃ j, backoff_waits c url = (fun i : nat => 2 ^ Z.of_nat i) <$> seq 0 j ∧
        (j ≤ Z.to_nat (max_retries c) - 1)%nat) ∧
  sleep_time (fetch_events c url) <= 2 ^ Z.of_nat (Z.to_nat (max_retries c) - 1) - 1.
Proof.
  pose proof (fetch_loop_bounded (timeout c) (max_retries c) url (Z.to_nat (max_retries c))
                0 (session c)) as H.
  assert (backoff_waits c url
          = sleeps_of (fetch_loop (timeout c) (max_retries c) url (range (max_retries c))
                         (session c)).2
          ∧ attempts_made c url
            = length (requests_of (fetch_loop (timeout c) (max_retries c) url
                                     (range (max_retries c)) (session c)).2)) as [Hb Ha].
  { unfold backoff_waits, attempts_made, fetch_events, HTTPClient_fetch.
    by destruct (fetch_loop _ _ _ _ _) as [[r s'] evs]. }
  destruct H as [Hreq (j & Hsl & Hj)]; [intros Hn; cbn; lia |].
  fold (range (max_retries c)) in Hreq, Hsl.
  rewrite Ha, Hb. split; [exact Hreq |]. split; [by exists j |].
  unfold sleep_time. fold (backoff_waits c url). rewrite Hb, Hsl, sum_powers_of_two.
  assert (2 ^ Z.of_nat j <= 2 ^ Z.of_nat (Z.to_nat (max_retries c) - 1)); [| lia].
  apply Z.pow_le_mono_r; lia.
Qed.

(** X2.  Whatever the transport does, a call of [fetch] sends at most
    [max_retries] requests, its waits are the consecutive backoffs [2^0],
    [2^1], ... with none after the last attempt of the budget, and so it
    sleeps less than [2^(max_retries - 1)] seconds in all (at most 3 with
    the default budget of 3). *)
Theorem fetch_bounded (c : HTTPClient) (url : string) :
  (attempts_made c url ≤ Z.to_nat (max_retries c))%nat ∧
  (∃ j, backoff_waits c url = (fun i : nat => 2 ^ Z.of_nat i) <$> seq 0 j ∧
        (j ≤ Z.to_nat (max_retries c) - 1)%nat) ∧
  sleep_time (fetch_events c url) <= 2 ^ Z.of_nat (Z.to_nat (max_retries c) - 1) - 1.
Proof. apply fetch_limits. Qed.

(** ** The scraping thread after a stop, and over a cycle *)

Section CycleProperties.
Context {bs4 : BS4}.

Lemma thread_steps_add (n m : nat) :
  ∀ p,
    thread_steps (n + m) p
    = ((thread_steps m (thread_steps n p).1).1,
       (thread_steps n p).2 ++ (thread_steps m (thread_steps n p).1).2).
Proof.
  induction n as [| n IH]; intros p.
  { cbn. by destruct (thread_steps m p). }
  cbn [Nat.add thread_steps].
  destruct (thread_step p) as [p1 evs1]. rewrite (IH p1).
  destruct (thread_steps n p1) as [p2 evs2]. cbn [fst snd].
  destruct (thread_steps m p2) as [p3 evs3]. cbn. by rewrite app_assoc.
Qed.

Lemma thread_steps_finished (n : nat) (p : NewsScraping) :
  thread p = Some Finished → thread_steps n p = (p, []).
Proof.
  intros Hp. induction n as [| n IH]; [done |].
  cbn [thread_steps]. rewrite (thread_step_at p _ Hp). cbn [scrape_news_step]. by rewrite IH.
Qed.

Ltac run_thread_step Hs :=
  match goal with
  | |- context [thread_step ?q] => rewrite (thread_step_at q _ eq_refl)
  end;
  cbn [scrape_news_step stop_event set_thread set_news_queue set_http_client
       interval news_site news_queue];
  rewrite ?Hs; cbn [negb fst snd app].

(** From a point other than [fetch], a thread whose stop event is set
    reaches the end of [scrape_news]; only the handler still sleeps. *)
Lemma finish_from (p : NewsScraping) (pc : thread_pc) :
  stop_event p = true → thread p = Some pc → pc ≠ AtFetch →
  thread_steps (steps_to_finish pc) p
  = (set_thread p (Some Finished),
     match pc with
     | AtExcept e => [EvLog ERROR (ErrorScraping (news_site p) e); EvSleep 5]
     | _ => []
     end).
Proof.
  intros Hs Hpc Hne.
  assert (p = set_thread p (Some pc)) as Hp by (destruct p; cbn in *; by rewrite Hpc).
  destruct pc as [| | news_data | rounds | e |]; try done.
  - rewrite Hp at 1. cbn [steps_to_finish thread_steps]. by run_thread_step Hs.
  - cbn [steps_to_finish]. rewrite thread_steps_add.
    rewrite (push_batch_set news_data p Hpc Hs). cbn [fst snd thread_steps app].
    run_thread_step Hs. run_thread_step Hs.
    destruct (range (interval p)); by run_thread_step Hs.
  - rewrite Hp at 1. cbn [steps_to_finish thread_steps].
    destruct rounds; run_thread_step Hs; by run_thread_step Hs.
  - rewrite Hp at 1. cbn [steps_to_finish thread_steps].
    run_thread_step Hs. by run_thread_step Hs.
  - cbn. f_equal. exact Hp.
Qed.

Lemma sleeps_of_logs (evs : list event) : Forall is_log evs → sleeps_of evs = [].
Proof.
  unfold sleeps_of. induction 1 as [| ev evs Hev _ IH]; [done |]. by destruct ev.
Qed.

Lemma requests_of_logs (evs : list event) : Forall is_log evs → requests_of evs = [].
Proof.
  unfold requests_of. induction 1 as [| ev evs Hev _ IH]; [done |]. by destruct ev.
Qed.

Lemma puts_of_logs (evs : list event) : Forall is_log evs → puts_of evs = [].
Proof.
  unfold puts_of. induction 1 as [| ev evs Hev _ IH]; [done |]. by destruct ev.
Qed.

Lemma sleep_time_app (l1 l2 : list event) :
  sleep_time (l1 ++ l2) = sleep_time l1 + sleep_time l2.
Proof.
  unfold sleep_time. rewrite sleeps_of_app.
  induction (sleeps_of l1) as [| d l IH]; cbn; [done |]. rewrite IH. lia.
Qed.

(** Shutdown of a thread: what the steps up to the end of [scrape_news]
    do once the stop event is set. *)
Lemma stopped_thread_run (p : NewsScraping) :
  stop_event p = true → thread_alive p = true →
  ∃ n,
    thread (thread_steps n p).1 = Some Finished ∧
    stop_event (thread_steps n p).1 = true ∧
    news_queue (thread_steps n p).1 = news_queue p ∧
    puts_of (thread_steps n p).2 = [] ∧
    (length (requests_of (thread_steps n p).2) ≤ Z.to_nat (max_retries (http_client p)))%nat ∧
    sleep_time (thread_steps n p).2
      <= 2 ^ Z.of_nat (Z.to_nat (max_retries (http_client p)) - 1) - 1 + 5.
Proof.
  intros Hs Ha.
  assert (0 <= 2 ^ Z.of_nat (Z.to_nat (max_retries (http_client p)) - 1) - 1) as Hpow.
  { pose proof (Z.pow_pos_nonneg 2 (Z.of_nat (Z.to_nat (max_retries (http_client p)) - 1))).
    lia. }
  destruct (thread p) as [pc |] eqn:Hpc; [| by unfold thread_alive in Ha; rewrite Hpc in Ha].
  assert (pc = AtFetch ∨ pc ≠ AtFetch) as [-> | Hne] by (destruct pc; (by left) || (by right)).
  - destruct (fetch_step p Hpc) as (pc1 & pevs & Hstep & Hl & _).
    pose proof (thread_step_alive p) as Halive.
    set (p1 := set_thread (set_http_client p (HTTPClient_fetch (http_client p) (news_site p)).1.2)
                 (Some pc1)) in *.
    assert (pc1 ≠ AtFetch) as Hne1.
    { intros ->. revert Hstep. rewrite (thread_step_at p _ Hpc). cbn [scrape_news_step].
      unfold NewsScraping_fetch.
      destruct (HTTPClient_fetch (http_client p) (news_site p)) as [[[[html |] | e'] c] evs];
        cbn; try by intros [= ?].
      destruct (truthy html); [| by intros [= ?]].
      destruct (parser_parse (parser p) html) as [[items | e'] ?]; by intros [= ?]. }
    exists (1 + steps_to_finish pc1)%nat. rewrite thread_steps_add.
    assert (thread_steps 1 p = (p1, fetch_events (http_client p) (news_site p) ++ pevs)) as ->.
    { cbn [thread_steps]. by rewrite Hstep, app_nil_r. }
    cbn [fst snd].
    rewrite (finish_from p1 pc1) by done. cbn [fst snd].
    pose proof (fetch_limits (http_client p) (news_site p)) as (Hreq & _ & Hsleep).
    pose proof (quiet_no_io _ (fetch_events_quiet (http_client p) (news_site p))) as (Hput & _).
    repeat split; try done.
    + rewrite !puts_of_app, Hput, (puts_of_logs pevs Hl). by destruct pc1.
    + rewrite !requests_of_app, !length_app, (requests_of_logs pevs Hl).
      unfold attempts_made in Hreq. destruct pc1; cbn; lia.
    + rewrite !sleep_time_app. unfold sleep_time at 2. rewrite (sleeps_of_logs pevs Hl).
      destruct pc1; cbn; unfold sleep_time in *; cbn; lia.
  - exists (steps_to_finish pc). rewrite (finish_from p pc) by done. cbn [fst snd].
    repeat split; try done.
    + by destruct pc.
    + destruct pc; cbn; lia.
    + destruct pc; cbn; unfold sleep_time; cbn; lia.
Qed.


End CycleProperties.

Section CycleRuns.
Context {bs4 : BS4}.

Ltac thread_step_from pc :=
  match goal with
  | |- context [thread_step ?q] => rewrite (thread_step_at q pc eq_refl)
  end.

(** The rounds of the interval wait with the stop event unset: one second
    each. *)
Lemma sleep_rounds (rounds : list Z) :
  ∀ p : NewsScraping,
    thread p = Some (AtSleep rounds) → stop_event p = false →
    thread_steps (length rounds) p
    = (set_thread p (Some (AtSleep [])), replicate (length rounds) (EvSleep 1)).
Proof.
  induction rounds as [| d rounds IH]; intros p Hpc Hs.
  - cbn. destruct p; cbn in *. by rewrite Hpc.
  - cbn [length thread_steps]. rewrite (thread_step_at p _ Hpc).
    cbn [scrape_news_step]. rewrite Hs. by rewrite (IH _) by done.
Qed.

Lemma length_range (n : Z) : length (range n) = Z.to_nat n.
Proof. unfold range. by rewrite length_fmap, length_seq. Qed.

(** X4.  A cycle that nothing disturbs: from the head of the loop with the
    stop event unset, when [fetch] returns content and [parse] extracts
    [items], the thread puts all the items on its queue in the order of
    extraction, then sleeps [interval] times one second and is back at
    the head of the loop; its events are those of [fetch], the log
    records of [parse], the puts and the sleeps, in this order. *)
Theorem undisturbed_cycle (p : NewsScraping) (html : string) (items : list NewsItem)
    (pevs : list event) :
  thread p = Some AtLoopHead → stop_event p = false →
  fetch_result (http_client p) (news_site p) = Ok (Some html) → html ≠ "" →
  parser_parse (parser p) html = (Ok items, pevs) →
  thread_steps (2 + (length items + (1 + (Z.to_nat (interval p) + 1)))) p
  = (mkNewsScraping (news_site p) (interval p) (news_queue p ++ items) false
       (fetch_client (http_client p) (news_site p)) (parser p) (Some AtLoopHead),
     fetch_events (http_client p) (news_site p) ++ pevs
       ++ (EvPut (news_site p) <$> items)
       ++ replicate (Z.to_nat (interval p)) (EvSleep 1)).
Proof.
  intros Hpc Hs Hfetch Hhtml Hparse.
  apply truthy_nonempty in Hhtml.
  assert (thread_steps 2 p
          = (set_thread (set_http_client p (fetch_client (http_client p) (news_site p)))
               (Some (AtPush (items ++ []))),
             fetch_events (http_client p) (news_site p) ++ pevs)) as H2.
  { cbn [thread_steps]. rewrite (thread_step_at p _ Hpc). cbn [scrape_news_step].
    rewrite Hs. thread_step_from AtFetch.
    cbn [scrape_news_step]. unfold NewsScraping_fetch.
    cbn [http_client news_site parser interval set_thread].
    unfold fetch_result, fetch_events, fetch_client in *.
    destruct (HTTPClient_fetch (http_client p) (news_site p)) as [[r c] evs].
    cbn [fst snd] in *. subst r. rewrite Hhtml, Hparse. cbn. by rewrite !app_nil_r. }
  rewrite thread_steps_add, H2. cbn [fst snd].
  rewrite thread_steps_add, (push_batch_unset items _ []) by done. cbn [fst snd].
  rewrite thread_steps_add. cbn [thread_steps].
  thread_step_from (AtPush []). cbn [scrape_news_step fst snd].
  rewrite thread_steps_add.
  rewrite <- (length_range (interval p)).
  rewrite (sleep_rounds (range (interval p))) by done. cbn [fst snd].
  cbn [thread_steps]. thread_step_from (AtSleep []).
  cbn [scrape_news_step fst snd]. unfold set_thread, set_news_queue, set_http_client.
  cbn [news_site interval news_queue stop_event http_client parser thread app].
  rewrite Hs, length_range, !app_nil_r, <- !app_assoc. reflexivity.
Qed.

(** [fetch] leaves the behaviour of the session as it is. *)
Lemma fetch_loop_respond (t m : Z) (url : string) (attempts : list Z) :
  ∀ s, respond (fetch_loop t m url attempts s).1.2 = respond s.
Proof.
  induction attempts as [| attempt rest IH]; intros s; [done |].
  cbn [fetch_loop session_get].
  destruct (respond s (sent s) url) as [text | []]; try done.
  specialize (IH {| respond := respond s; sent := S (sent s); closed := closed s |}).
  by destruct (fetch_loop t m url rest _) as [[r s2] evs].
Qed.

(** A text returned by [fetch] is an answer of the session. *)
Lemma fetch_loop_text (t m : Z) (url : string) (attempts : list Z) (text : string) :
  ∀ s, (fetch_loop t m url attempts s).1.1 = Ok (Some text) →
       ∃ n, respond s n url = Ok text.
Proof.
  induction attempts as [| attempt rest IH]; intros s; [done |].
  cbn [fetch_loop session_get].
  destruct (respond s (sent s) url) as [text' | []] eqn:Hr; try done.
  - cbn. intros [= ->]. eauto.
  - specialize (IH {| respond := respond s; sent := S (sent s); closed := closed s |}).
    destruct (fetch_loop t m url rest _) as [[r s2] evs]. cbn in *. exact IH.
Qed.

Lemma thread_step_no_batch (p : NewsScraping) :
  no_batch p →
  no_batch (thread_step p).1 ∧ puts_of (thread_step p).2 = [] ∧
  news_queue (thread_step p).1 = news_queue p.
Proof.
  intros [Hnet Hpc].
  destruct (thread p) as [pc |] eqn:Hp.
  2:{ unfold thread_step. rewrite Hp. cbn. split; [| done]. split; [done |].
      intros ??. by rewrite Hp. }
  destruct pc as [| | [| item rest] | [| d rest] | e |].
  2:{ rewrite (thread_step_at p _ Hp). cbn [scrape_news_step]. unfold NewsScraping_fetch.
      pose proof (fetch_loop_respond (timeout (http_client p)) (max_retries (http_client p))
                    (news_site p) (range (max_retries (http_client p)))
                    (session (http_client p))) as Hresp.
      pose proof (fun text =>
                    fetch_loop_text (timeout (http_client p)) (max_retries (http_client p))
                      (news_site p) (range (max_retries (http_client p))) text
                      (session (http_client p))) as Htext.
      pose proof (quiet_no_io _ (fetch_events_quiet (http_client p) (news_site p)))
        as (Hput & _).
      unfold fetch_events, HTTPClient_fetch in *.
      destruct (fetch_loop _ _ _ _ _) as [[r s'] evs]. cbn [fst snd] in *.
      destruct r as [[html |] | e'].
      1: destruct (Htext html eq_refl) as (n & Hn); rewrite (Hnet _ _ _ Hn).
      all: cbn [truthy fst snd].
      all: split; [split; [cbn; by rewrite Hresp | intros ??; cbn; congruence]
                  | split; [exact Hput | reflexivity]]. }
  all: rewrite (thread_step_at p _ Hp); cbn [scrape_news_step].
  all: try (by exfalso; eapply Hpc).
  all: destruct (stop_event p); cbn [fst snd negb].
  all: split; [| done].
  all: split; [exact Hnet |]; intros ??; cbn; rewrite ?Hp; congruence.
Qed.

Lemma thread_steps_no_batch (n : nat) :
  ∀ p, no_batch p →
       puts_of (thread_steps n p).2 = [] ∧ news_queue (thread_steps n p).1 = news_queue p ∧
       stop_event (thread_steps n p).1 = stop_event p ∧
       (thread_alive p = true → stop_event p = false →
        thread_alive (thread_steps n p).1 = true).
Proof.
  induction n as [| n IH]; intros p Hnb; [done |].
  cbn [thread_steps].
  destruct (thread_step_no_batch p Hnb) as (Hnb1 & Hput & Hq).
  pose proof (thread_step_frame p) as (Hstop & _).
  pose proof (thread_step_alive p) as Halive.
  destruct (thread_step p) as [p1 evs1]. cbn [fst snd] in *.
  destruct (IH p1 Hnb1) as (IH1 & IH2 & IH3 & IH4).
  destruct (thread_steps n p1) as [p2 evs2]. cbn [fst snd] in *.
  rewrite puts_of_app, Hput, IH1, IH2, IH3, Hq, Hstop.
  repeat split. intros Ha Hs. apply IH4; [by apply Halive | congruence].
Qed.

(** X5.  A source that never delivers content (every request times out,
    fails, raises, or answers with an empty text) produces no record and
    cannot end its thread: from the head of the loop, after any number
    of steps, nothing has been put on the queue, and while the stop event
    is unset the thread is still alive. *)
Theorem silent_source (p : NewsScraping) (n : nat) :
  no_content (respond (session (http_client p))) →
  thread p = Some AtLoopHead →
  puts_of (thread_steps n p).2 = [] ∧
  news_queue (thread_steps n p).1 = news_queue p ∧
  (stop_event p = false → thread_alive (thread_steps n p).1 = true).
Proof.
  intros Hnet Hpc.
  destruct (thread_steps_no_batch n p) as (H1 & H2 & _ & H4).
  { split; [done |]. intros ??. by rewrite Hpc. }
  repeat split; try done. intros Hs. apply H4; [| done].
  unfold thread_alive. by rewrite Hpc.
Qed.

(** X6.  A [start_thread] issued after [stop_thread] has set the event but
    before the thread has ended is lost: it only logs the warning, the
    event stays set, and the thread still runs to its end, so that the
    scraper is left without a live thread. *)
Theorem start_during_shutdown_lost (p : NewsScraping) :
  thread_alive p = true →
  let p1 := (stop_thread_begin p).1 in
  start_thread p1 = (p1, [EvLog WARNING ThreadAlreadyRunning]) ∧
  stop_event (start_thread p1).1 = true ∧
  ∃ n, thread (thread_steps n (start_thread p1).1).1 = Some Finished ∧
       thread_alive (thread_steps n (start_thread p1).1).1 = false.
Proof.
  intros Ha p1.
  assert (thread_alive p1 = true) as Ha1 by exact Ha.
  assert (start_thread p1 = (p1, [EvLog WARNING ThreadAlreadyRunning])) as ->.
  { unfold start_thread. by rewrite Ha1. }
  split; [done |]. split; [done |]. cbn [fst].
  destruct (stopped_thread_run p1 eq_refl Ha1) as (n & Hfin & _).
  exists n. split; [exact Hfin |]. unfold thread_alive. by rewrite Hfin.
Qed.

End CycleRuns.

Lemma undisturbed_cycle_witness :
  let p := scraper_at page_network "https://www.liputan6.com/" false AtLoopHead in
  @thread_steps stub_bs4 8 p
  = (mkNewsScraping "https://www.liputan6.com/" 2 [item1; item3] false
       (fetch_client (http_client p) (news_site p)) Liputan6Parser (Some AtLoopHead),
     fetch_events (http_client p) (news_site p)
       ++ [EvLog WARNING (ErrorParsingItem (OtherException "broken element"))]
       ++ [EvPut "https://www.liputan6.com/" item1; EvPut "https://www.liputan6.com/" item3]
       ++ [EvSleep 1; EvSleep 1]).
Proof.
  intros p.
  apply (@undisturbed_cycle stub_bs4 p "<page/>" [item1; item3]
           [EvLog WARNING (ErrorParsingItem (OtherException "broken element"))]).
  - reflexivity.
  - reflexivity.
  - reflexivity.
  - discriminate.
  - reflexivity.
Defined.

Lemma silent_source_witness :
  let p := scraper_at dead_network "https://www.liputan6.com/" false AtLoopHead in
  puts_of (@thread_steps stub_bs4 50 p).2 = [] ∧
  news_queue (@thread_steps stub_bs4 50 p).1 = [] ∧
  thread_alive (@thread_steps stub_bs4 50 p).1 = true.
Proof.
  intros p.
  destruct (@silent_source stub_bs4 p 50) as (H1 & H2 & H3).
  - intros n url text H. discriminate H.
  - reflexivity.
  - split; [exact H1 |]. split; [exact H2 |]. apply H3. reflexivity.
Defined.

Lemma start_during_shutdown_lost_witness :
  let p := scraper_at page_network "https://www.liputan6.com/" false (AtPush [item1; item3]) in
  let p1 := (stop_thread_begin p).1 in
  start_thread p1 = (p1, [EvLog WARNING ThreadAlreadyRunning]) ∧
  stop_event (start_thread p1).1 = true ∧
  ∃ n, thread (@thread_steps stub_bs4 n (start_thread p1).1).1 = Some Finished ∧
       thread_alive (@thread_steps stub_bs4 n (start_thread p1).1).1 = false.
Proof.
  intros p. apply (@start_during_shutdown_lost stub_bs4 p). reflexivity.
Defined.

(** ** The process along any schedule *)

Section ScheduleProperties.
Context {bs4 : BS4}.

Lemma run_app (sch1 sch2 : list action) :
  ∀ s,
    run (sch1 ++ sch2) s
    = ((run sch2 (run sch1 s).1).1, (run sch1 s).2 ++ (run sch2 (run sch1 s).1).2).
Proof.
  induction sch1 as [| a sch1 IH]; intros s.
  { cbn. by destruct (run sch2 s). }
  cbn [app]. rewrite !run_cons, IH. cbn [fst snd]. by rewrite app_assoc.
Qed.

Lemma run_keeps_stop (sch : list action) :
  ∀ (s : System) (i : nat) (p : NewsScraping),
    news_scrapers s !! i = Some p → stop_event p = true →
    Forall (fun ae => is_restart i ae = false) (run sch s).2 →
    ∃ p', news_scrapers (run sch s).1 !! i = Some p' ∧ stop_event p' = true.
Proof.
  induction sch as [| a sch IH]; intros s i p Hi Hs Hno; [by exists p |].
  rewrite run_cons in Hno |- *. cbn [fst snd] in *.
  apply Forall_app in Hno as [Hno1 Hno2].
  destruct (step_keeps_stop a s i p Hi Hs)
    as [(p' & Hi' & Hs' & _) | (ev & rest & Heq & Hr)].
  - by apply (IH _ i p').
  - rewrite Heq in Hno1. apply Forall_cons in Hno1 as [Hev _]. congruence.
Qed.

(** X7.  The stop event of a scraper is cleared by nothing but a
    [start_thread] that really starts a thread: along every schedule in
    which no such start of the scraper occurs, an event that is set is
    still set at the end. *)
Theorem stop_event_sticky (s : System) (i : nat) (p : NewsScraping) (sch : list action) :
  news_scrapers s !! i = Some p → stop_event p = true →
  Forall (fun ae => is_restart i ae = false) (run sch s).2 →
  ∃ p', news_scrapers (run sch s).1 !! i = Some p' ∧ stop_event p' = true.
Proof. apply run_keeps_stop. Qed.

(** The queue after a step of the thread is the queue before with the
    puts of the step at its end. *)
Lemma thread_step_queue (p : NewsScraping) :
  news_queue (thread_step p).1 = news_queue p ++ puts_of (thread_step p).2.
Proof.
  destruct (thread p) as [pc |] eqn:Hpc.
  2:{ unfold thread_step. rewrite Hpc. cbn. by rewrite app_nil_r. }
  destruct pc as [| | [| item rest] | [| d rest] | e |].
  2:{ destruct (fetch_step p Hpc) as (pc & pevs & -> & Hl & _). cbn [fst snd].
      assert (Forall quiet (fetch_events (http_client p) (news_site p) ++ pevs)) as Hq.
      { apply Forall_app. split; [apply fetch_events_quiet | by apply is_log_quiet]. }
      apply quiet_no_io in Hq as (-> & _). cbn. by rewrite app_nil_r. }
  all: rewrite (thread_step_at p _ Hpc); cbn [scrape_news_step].
  all: destruct (stop_event p); cbn; by rewrite ?app_nil_r.
Qed.

(** Replacing the scraper at [i]: the items waiting elsewhere stay. *)
Lemma queued_update (l : list NewsScraping) (i : nat) (q : NewsScraping) :
  l !! i = Some q →
  ∃ others,
    queued l ≡ₚ news_queue q ++ others ∧
    ∀ q', queued (<[i := q']> l) ≡ₚ news_queue q' ++ others.
Proof.
  intros Hi.
  exists (queued (take i l) ++ queued (drop (S i) l)).
  assert (∀ x, <[i := x]> l = take i l ++ x :: drop (S i) l) as Hins.
  { intros x. apply insert_take_drop. by eapply lookup_lt_Some. }
  split.
  - rewrite <- (take_drop_middle l i q Hi) at 1.
    unfold queued. rewrite fmap_app, concat_app. cbn.
    by rewrite Permutation_app_swap_app.
  - intros q'. rewrite Hins.
    unfold queued. rewrite fmap_app, concat_app. cbn.
    by rewrite Permutation_app_swap_app.
Qed.

(** One action keeps the balance of the items. *)
Lemma step_balance (a : action) (s : System) :
  gets_of (step a s).2 ++ queued (news_scrapers (step a s).1)
  ≡ₚ queued (news_scrapers s) ++ puts_of (step a s).2.
Proof.
  assert (∀ (j : nat) (f : NewsScraping → NewsScraping * list event),
            (∀ q, news_queue (f q).1 = news_queue q ++ puts_of (f q).2) →
            (∀ q, gets_of (f q).2 = []) →
            gets_of (on_scraper j f s).2 ++ queued (news_scrapers (on_scraper j f s).1)
            ≡ₚ queued (news_scrapers s) ++ puts_of (on_scraper j f s).2) as Hon.
  { intros j f Hq Hg. unfold on_scraper.
    destruct (news_scrapers s !! j) as [q |] eqn:Hj; [| cbn; by rewrite app_nil_r].
    specialize (Hq q). specialize (Hg q). destruct (f q) as [q' evs]. cbn [fst snd] in *.
    destruct (queued_update _ j q Hj) as (others & H1 & H2).
    rewrite Hg, H1, (H2 q'), Hq. cbn. rewrite <- !app_assoc.
    apply Permutation_app_head, Permutation_app_comm. }
  destruct a as [| j | | j | j]; cbn [step].
  - unfold main_step.
    destruct (main s) as [| i | | i | i |]; cbn [fst snd];
      try (cbn; by rewrite app_nil_r).
    + destruct (forallb stop_event (news_scrapers s)); cbn; by rewrite app_nil_r.
    + destruct (news_scrapers s !! i) as [q |] eqn:Hi; [| cbn; by rewrite app_nil_r].
      destruct (news_queue q) as [| news rest] eqn:Hq; [cbn; by rewrite app_nil_r |].
      destruct (queued_update _ i q Hi) as (others & H1 & H2).
      assert (gets_of (consume (seen_news s) news).2 = [news]
              ∧ puts_of (consume (seen_news s) news).2 = []) as [Hg Hp].
      { unfold consume. by case_bool_decide. }
      destruct (consume (seen_news s) news) as [seen evs]. cbn [fst snd] in *.
      rewrite Hg, Hp, H1, (H2 (set_news_queue q rest)), Hq. cbn. by rewrite app_nil_r.
    + destruct (news_scrapers s !! i) as [q |] eqn:Hi; [| cbn; by rewrite app_nil_r].
      destruct (queued_update _ i q Hi) as (others & H1 & H2).
      unfold stop_thread_begin, stop_thread_end, thread_alive.
      destruct (thread q) eqn:Hq; cbn [fst snd news_scrapers].
      * rewrite H1, (H2 (set_stop_event q true)). cbn. by rewrite app_nil_r.
      * rewrite H1, H2. cbn. rewrite Hq. cbn. by rewrite app_nil_r.
    + destruct (news_scrapers s !! i) as [q |] eqn:Hi; [| cbn; by rewrite app_nil_r].
      destruct (queued_update _ i q Hi) as (others & H1 & H2).
      cbn [fst snd news_scrapers]. rewrite H1, H2.
      unfold stop_thread_end. destruct (thread_alive q); cbn; by rewrite app_nil_r.
  - apply Hon; [apply thread_step_queue | intros q; apply thread_step_frame].
  - unfold main_interrupt. destruct (main s); cbn; by rewrite app_nil_r.
  - apply Hon; intros q; unfold start_thread; destruct (thread_alive q); cbn;
      by rewrite ?app_nil_r.
  - apply Hon; intros q; cbn; by rewrite ?app_nil_r.
Qed.

Lemma run_balance (sch : list action) :
  ∀ s,
    gets_of (events (run sch s).2) ++ queued (news_scrapers (run sch s).1)
    ≡ₚ queued (news_scrapers s) ++ puts_of (events (run sch s).2).
Proof.
  induction sch as [| a sch IH]; intros s; [cbn; by rewrite app_nil_r |].
  rewrite run_cons. cbn [fst snd].
  rewrite events_app, events_tag, gets_of_app, puts_of_app.
  rewrite <- app_assoc, (IH (step a s).1).
  rewrite !app_assoc. apply Permutation_app_tail. apply step_balance.
Qed.

(** X8.  The queues neither lose nor invent an item: along every schedule
    the items dequeued by the aggregator together with those still
    waiting in the queues are, up to order, the items that were waiting
    at the start together with those the scraping threads have put. *)
Theorem items_conserved (s : System) (sch : list action) :
  gets_of (events (run sch s).2) ++ queued (news_scrapers (run sch s).1)
  ≡ₚ queued (news_scrapers s) ++ puts_of (events (run sch s).2).
Proof. apply run_balance. Qed.

(** What is printed along a run from any state of the aggregator. *)
Lemma run_prints (s : System) (sch : list action) :
  prints_of (events (run sch s).2)
  = first_arrivals_after (elements (seen_news s)) (gets_of (events (run sch s).2)) ∧
  seen_news (run sch s).1
  = list_to_set (news_tuple <$> gets_of (events (run sch s).2)) ∪ seen_news s.
Proof.
  destruct (run_dedup sch s (elements (seen_news s))) as [Hio Hseen].
  { by rewrite list_to_set_elements_L. }
  split; [| exact Hseen].
  by rewrite <- io_of_prints, Hio, prints_of_deliveries.
Qed.




End ScheduleProperties.

(** ** The main thread on its own *)

Section MainAlone.
Context {bs4 : BS4}.

(** No action adds or removes a scraper. *)
Lemma step_length (a : action) (s : System) :
  length (news_scrapers (step a s).1) = length (news_scrapers s).
Proof.
  assert (∀ j f, length (news_scrapers (on_scraper j f s).1) = length (news_scrapers s))
    as Hon.
  { intros j f. unfold on_scraper. destruct (news_scrapers s !! j) as [q |]; [| done].
    destruct (f q). cbn. apply length_insert. }
  destruct a as [| j | | j | j]; cbn [step]; try apply Hon.
  - unfold main_step.
    destruct (main s) as [| i | | i | i |]; cbn; try done.
    + by destruct (forallb stop_event (news_scrapers s)).
    + destruct (news_scrapers s !! i) as [q |]; [| done].
      destruct (news_queue q); [done |].
      destruct (consume (seen_news s) n). cbn. apply length_insert.
    + destruct (news_scrapers s !! i) as [q |]; [| done].
      destruct (thread q); cbn; apply length_insert.
    + destruct (news_scrapers s !! i) as [q |]; [| done]. cbn. apply length_insert.
  - unfold main_interrupt. by destruct (main s).
Qed.

Lemma run_length (sch : list action) :
  ∀ s, length (news_scrapers (run sch s).1) = length (news_scrapers s).
Proof.
  induction sch as [| a sch IH]; intros s; [done |].
  rewrite run_cons. cbn [fst]. by rewrite IH, step_length.
Qed.

Lemma run_main_add (n m : nat) (s : System) :
  run (replicate (n + m) RunMain) s
  = ((run (replicate m RunMain) (run (replicate n RunMain) s).1).1,
     (run (replicate n RunMain) s).2
       ++ (run (replicate m RunMain) (run (replicate n RunMain) s).1).2).
Proof. rewrite replicate_add. apply run_app. Qed.

Lemma closes_of_app (l1 l2 : list event) : closes_of (l1 ++ l2) = closes_of l1 ++ closes_of l2.
Proof. apply omap_app. Qed.

(** The part of [finally] for the scraper at [i]: one or two steps of the
    main thread. *)
Lemma cleanup_one (s : System) (i : nat) (q : NewsScraping) :
  main s = AtCleanup i → news_scrapers s !! i = Some q →
  ∃ n, (1 ≤ n ≤ 2)%nat ∧
       (run (replicate n RunMain) s).1
       = mkSystem (<[i := shut_down q]> (news_scrapers s)) (seen_news s) (AtCleanup (S i)) ∧
       closes_of (events (run (replicate n RunMain) s).2) = [news_site q].
Proof.
  intros Hm Hi.
  destruct (thread q) as [pc |] eqn:Hq.
  - exists 2%nat. split; [lia |].
    cbn [replicate]. rewrite !run_cons. cbn [run step fst snd].
    assert (main_step s
            = (mkSystem (<[i := set_stop_event q true]> (news_scrapers s)) (seen_news s)
                 (AtJoin i), [EvJoin (news_site q) 5])) as ->.
    { unfold main_step. rewrite Hm, Hi. unfold stop_thread_begin. by rewrite Hq. }
    cbn [fst snd]. unfold main_step at 1 2. cbn [main news_scrapers seen_news].
    rewrite list_lookup_insert_eq by (by eapply lookup_lt_Some).
    cbn [fst snd]. rewrite list_insert_insert_eq. split; [done |].
    rewrite app_nil_r, events_app, !events_tag, closes_of_app.
    unfold stop_thread_end. destruct (thread_alive (set_stop_event q true)); by cbn.
  - exists 1%nat. split; [lia |].
    cbn [replicate]. rewrite !run_cons. cbn [run step fst snd].
    unfold main_step. rewrite Hm, Hi. unfold stop_thread_begin. rewrite Hq.
    cbn [fst snd]. split; [done |].
    rewrite app_nil_r, events_tag. unfold stop_thread_end, thread_alive. cbn. by rewrite Hq.
Qed.

Lemma cleanup_from (k : nat) :
  ∀ (i : nat) (s : System),
    main s = AtCleanup i → (i + k)%nat = length (news_scrapers s) →
    ∃ n, (n ≤ 2 * k + 1)%nat ∧
         main (run (replicate n RunMain) s).1 = Returned ∧
         seen_news (run (replicate n RunMain) s).1 = seen_news s ∧
         closes_of (events (run (replicate n RunMain) s).2)
           = news_site <$> drop i (news_scrapers s) ∧
         ∀ j p, news_scrapers s !! j = Some p →
                news_scrapers (run (replicate n RunMain) s).1 !! j
                = Some (if bool_decide (i ≤ j)%nat then shut_down p else p).
Proof.
  induction k as [| k IH]; intros i s Hm Hlen.
  - exists 1%nat. split; [lia |].
    assert (news_scrapers s !! i = None) as Hi by (apply lookup_ge_None; lia).
    cbn [replicate]. rewrite run_cons. cbn [run step fst snd].
    unfold main_step. rewrite Hm, Hi. cbn. split; [done |]. split; [done |].
    split; [by rewrite drop_ge by lia |].
    intros j p Hj. rewrite bool_decide_eq_false_2; [done |].
    apply lookup_lt_Some in Hj. lia.
  - destruct (lookup_lt_is_Some_2 (news_scrapers s) i ltac:(lia)) as [q Hi].
    destruct (cleanup_one s i q Hm Hi) as (n1 & Hn1 & Hs1 & Hc1).
    destruct (IH (S i) (run (replicate n1 RunMain) s).1) as (n2 & Hn2 & Hm2 & Hseen2 & Hc2 & Hl2).
    { by rewrite Hs1. }
    { rewrite Hs1. cbn. rewrite length_insert. lia. }
    exists (n1 + n2)%nat. split; [lia |].
    rewrite run_main_add. cbn [fst snd].
    split; [done |]. split; [by rewrite Hseen2, Hs1 |].
    split.
    + rewrite events_app, closes_of_app, Hc1, Hc2, Hs1. cbn [news_scrapers].
      rewrite drop_insert_lt by lia.
      by rewrite (drop_S _ q i Hi).
    + intros j p Hj.
      destruct (decide (j = i)) as [-> | Hne].
      * rewrite (Hl2 i (shut_down q)).
        2:{ rewrite Hs1. cbn. apply list_lookup_insert_eq. by eapply lookup_lt_Some. }
        rewrite bool_decide_eq_false_2 by lia. rewrite bool_decide_eq_true_2 by lia.
        congruence.
      * rewrite (Hl2 j p).
        2:{ rewrite Hs1. cbn. by rewrite list_lookup_insert_ne. }
        f_equal. repeat case_bool_decide; try done; lia.
Qed.

(** X11.  [finally] shuts every scraper down: from its first step the main
    thread, after at most two steps for each scraper and one more, has
    returned; by then the stop event of every scraper is set and its
    HTTP client closed, exactly one [close] was done for each scraper, in
    order, and the queues, the sites and [seen_news] are as they were. *)
Theorem finally_shuts_down (s : System) :
  main s = AtCleanup 0 →
  ∃ n, (n ≤ 2 * length (news_scrapers s) + 1)%nat ∧
       let r := run (replicate n RunMain) s in
       main r.1 = Returned ∧
       news_scrapers r.1 = shut_down <$> news_scrapers s ∧
       Forall shut (news_scrapers r.1) ∧
       news_queue <$> news_scrapers r.1 = news_queue <$> news_scrapers s ∧
       seen_news r.1 = seen_news s ∧
       closes_of (events r.2) = news_site <$> news_scrapers s.
Proof.
  intros Hm.
  destruct (cleanup_from (length (news_scrapers s)) 0 s Hm eq_refl)
    as (n & Hn & Hret & Hseen & Hc & Hl).
  exists n. split; [exact Hn |]. cbn zeta.
  assert (news_scrapers (run (replicate n RunMain) s).1 = shut_down <$> news_scrapers s)
    as Heq.
  { apply list_eq. intros j. rewrite list_lookup_fmap.
    destruct (news_scrapers s !! j) as [p |] eqn:Hj.
    - rewrite (Hl j p Hj). by rewrite bool_decide_eq_true_2 by lia.
    - cbn. apply lookup_ge_None. apply lookup_ge_None in Hj.
      rewrite run_length. lia. }
  split; [exact Hret |]. split; [exact Heq |]. rewrite Heq.
  split; [by apply Forall_fmap, Forall_forall |].
  split; [rewrite <- list_fmap_compose; by apply list_fmap_ext |].
  split; [exact Hseen |]. by rewrite Hc.
Qed.

End MainAlone.

Section Tick.
Context {bs4 : BS4}.

(** The inner loop on the queue of scraper [i], left alone: as many steps
    as there are items, which are dequeued in order. *)
Lemma drain_queue (items : list NewsItem) :
  ∀ (s : System) (i : nat) (q : NewsScraping),
    main s = AtDrain i → news_scrapers s !! i = Some q → news_queue q = items →
    main (run (replicate (length items) RunMain) s).1 = AtDrain i ∧
    news_scrapers (run (replicate (length items) RunMain) s).1
      = <[i := set_news_queue q []]> (news_scrapers s) ∧
    gets_of (events (run (replicate (length items) RunMain) s).2) = items ∧
    sleeps_of (events (run (replicate (length items) RunMain) s).2) = [].
Proof.
  induction items as [| news items IH]; intros s i q Hm Hi Hq.
  - cbn. split; [done |]. split; [| done].
    rewrite list_insert_id; [done |]. rewrite Hi. f_equal. destruct q; cbn in *. by subst.
  - cbn [length replicate]. rewrite run_cons. cbn [step fst snd].
    assert (∃ seen evs,
              main_step s
              = (mkSystem (<[i := set_news_queue q items]> (news_scrapers s)) seen (AtDrain i),
                 evs) ∧
              gets_of evs = [news] ∧ sleeps_of evs = []) as (seen & evs & -> & Hg & Hsl).
    { unfold main_step. rewrite Hm, Hi, Hq. unfold consume.
      case_bool_decide; eexists _, _; by split. }
    cbn [fst snd].
    destruct (IH (mkSystem (<[i := set_news_queue q items]> (news_scrapers s)) seen (AtDrain i))
                i (set_news_queue q items)) as (H1 & H2 & H3 & H4); [done | | done |].
    { cbn. apply list_lookup_insert_eq. by eapply lookup_lt_Some. }
    rewrite events_app, events_tag, gets_of_app, sleeps_of_app, Hg, Hsl, H1, H2, H3, H4.
    cbn. by rewrite list_insert_insert_eq.
Qed.

Lemma drain_from (k : nat) :
  ∀ (i : nat) (s : System),
    main s = AtDrain i → (i + k)%nat = length (news_scrapers s) →
    ∃ n,
      main (run (replicate n RunMain) s).1 = AtTick ∧
      gets_of (events (run (replicate n RunMain) s).2) = queued (drop i (news_scrapers s)) ∧
      sleeps_of (events (run (replicate n RunMain) s).2) = [] ∧
      ∀ j p, news_scrapers s !! j = Some p →
             news_scrapers (run (replicate n RunMain) s).1 !! j
             = Some (if bool_decide (i ≤ j)%nat then set_news_queue p [] else p).
Proof.
  induction k as [| k IH]; intros i s Hm Hlen.
  - exists 1%nat.
    assert (news_scrapers s !! i = None) as Hi by (apply lookup_ge_None; lia).
    cbn [replicate]. rewrite run_cons. cbn [run step fst snd].
    unfold main_step. rewrite Hm, Hi. cbn. split; [done |].
    split; [by rewrite drop_ge by lia |]. split; [done |].
    intros j p Hj. rewrite bool_decide_eq_false_2; [done |].
    apply lookup_lt_Some in Hj. lia.
  - destruct (lookup_lt_is_Some_2 (news_scrapers s) i ltac:(lia)) as [q Hi].
    destruct (drain_queue (news_queue q) s i q Hm Hi eq_refl) as (Hm1 & Hs1 & Hg1 & Hsl1).
    set (n1 := length (news_queue q)) in *.
    set (s1 := (run (replicate n1 RunMain) s).1) in *.
    assert (news_scrapers s1 !! i = Some (set_news_queue q [])) as Hi1.
    { rewrite Hs1. apply list_lookup_insert_eq. by eapply lookup_lt_Some. }
    assert (main_step s1 = (mkSystem (news_scrapers s1) (seen_news s1) (AtDrain (S i)), []))
      as Hstep.
    { unfold main_step. by rewrite Hm1, Hi1. }
    destruct (IH (S i) (mkSystem (news_scrapers s1) (seen_news s1) (AtDrain (S i))))
      as (n2 & Hm2 & Hg2 & Hsl2 & Hl2); [done | |].
    { cbn. rewrite Hs1, length_insert. lia. }
    exists (n1 + (1 + n2))%nat.
    rewrite run_main_add. fold s1. rewrite run_main_add. cbn [fst snd].
    assert (run (replicate 1 RunMain) s1
            = (mkSystem (news_scrapers s1) (seen_news s1) (AtDrain (S i)), [])) as ->.
    { cbn [replicate]. rewrite run_cons. cbn [step run fst snd]. by rewrite Hstep. }
    cbn [fst snd app]. split; [exact Hm2 |].
    split.
    { rewrite events_app, gets_of_app, Hg1, Hg2. cbn [news_scrapers]. rewrite Hs1.
      rewrite drop_insert_lt by lia. rewrite (drop_S _ q i Hi). done. }
    split.
    { by rewrite events_app, sleeps_of_app, Hsl1, Hsl2. }
    intros j p Hj.
    destruct (decide (j = i)) as [-> | Hne].
    + rewrite (Hl2 i (set_news_queue q [])) by exact Hi1.
      rewrite bool_decide_eq_false_2 by lia. rewrite bool_decide_eq_true_2 by lia.
      congruence.
    + rewrite (Hl2 j p).
      2:{ cbn. rewrite Hs1. by rewrite list_lookup_insert_ne. }
      f_equal. repeat case_bool_decide; try done; lia.
Qed.

(** X12.  One round of the aggregator that nothing disturbs: from the loop
    condition, with the stop event of some scraper unset, the main
    thread empties every queue, scraper after scraper and each queue
    from its head, sleeps its tick of one second and is back at the
    loop condition; the printed items are the first arrivals among the
    dequeued ones whose tuple was not in [seen_news]. *)
Theorem aggregator_round (s : System) :
  main s = AtLoopCheck → forallb stop_event (news_scrapers s) = false →
  ∃ n,
    let r := run (replicate n RunMain) s in
    main r.1 = AtLoopCheck ∧
    news_scrapers r.1 = (fun p => set_news_queue p []) <$> news_scrapers s ∧
    gets_of (events r.2) = queued (news_scrapers s) ∧
    prints_of (events r.2)
      = first_arrivals_after (elements (seen_news s)) (queued (news_scrapers s)) ∧
    sleeps_of (events r.2) = [1].
Proof.
  intros Hm Hall.
  assert (main_step s = (mkSystem (news_scrapers s) (seen_news s) (AtDrain 0), [])) as Hstep.
  { unfold main_step. by rewrite Hm, Hall. }
  destruct (drain_from (length (news_scrapers s)) 0
              (mkSystem (news_scrapers s) (seen_news s) (AtDrain 0)))
    as (n & Hm2 & Hg2 & Hsl2 & Hl2); [done | done |].
  cbn [news_scrapers] in *. rewrite drop_0 in Hg2.
  set (s2 := (run (replicate n RunMain)
                (mkSystem (news_scrapers s) (seen_news s) (AtDrain 0))).1) in *.
  exists (1 + (n + 1))%nat. cbn zeta.
  assert (run (replicate (1 + (n + 1)) RunMain) s
          = (mkSystem (news_scrapers s2) (seen_news s2) AtLoopCheck,
             (run (replicate n RunMain)
                (mkSystem (news_scrapers s) (seen_news s) (AtDrain 0))).2
               ++ [(RunMain, EvSleep 1)])) as Hrun.
  { rewrite run_main_add.
    assert (run (replicate 1 RunMain) s
            = (mkSystem (news_scrapers s) (seen_news s) (AtDrain 0), [])) as ->.
    { cbn [replicate]. rewrite run_cons. cbn [step run fst snd]. by rewrite Hstep. }
    cbn [fst snd app]. rewrite run_main_add. fold s2. cbn [fst snd].
    cbn [replicate]. rewrite run_cons. cbn [step run fst snd].
    unfold main_step. rewrite Hm2. by cbn. }
  pose proof (run_prints s (replicate (1 + (n + 1)) RunMain)) as [Hp _].
  rewrite Hrun in Hp |- *. cbn [fst snd] in *.
  rewrite events_app, gets_of_app, sleeps_of_app, Hg2, Hsl2 in *.
  cbn in Hp |- *. rewrite app_nil_r in Hp |- *.
  split; [done |]. split; [| by split].
  apply list_eq. intros j. rewrite list_lookup_fmap.
  destruct (news_scrapers s !! j) as [p |] eqn:Hj.
  - rewrite (Hl2 j p Hj). by rewrite bool_decide_eq_true_2 by lia.
  - cbn. apply lookup_ge_None. apply lookup_ge_None in Hj.
    unfold s2. by rewrite run_length.
Qed.

End Tick.

(** ** More on the parsers *)

Section ParserDetails.
Context {bs4 : BS4}.

Lemma get_site_name_nonempty (default : string) (soup : Soup) :
  default ≠ "" → get_site_name default soup ≠ "".
Proof.
  intros Hd. unfold get_site_name.
  repeat case_match; try done. by apply truthy_nonempty.
Qed.


(** With a site name that is not empty, an item is made of every
    candidate whose three fields are read and not empty. *)
Lemma candidate_items_named fields (website_name : string) (news : Tag) (t d ts : string) :
  website_name ≠ "" → fields news = Ok (t, d, ts) →
  candidate_items fields website_name news
  = if truthy t && truthy d && truthy ts then [mkNewsItem website_name t d ts] else [].
Proof.
  intros Hw Hf. unfold candidate_items. rewrite Hf.
  destruct (truthy t && truthy d && truthy ts) eqn:Hb; [| done].
  apply andb_true_iff in Hb as [Hb Hts]. apply andb_true_iff in Hb as [Ht Hd].
  apply truthy_nonempty in Hw.
  unfold NewsItem_init. cbn [forallb]. by rewrite Hw, Ht, Hd, Hts.
Qed.


(** The events of the inner [try] of one candidate, the site name being
    non-empty. *)
Lemma parse_item_events fields (website_name : string) (news : Tag)
    (news_items : list NewsItem) :
  website_name ≠ "" →
  try_except (parse_item fields website_name news)
    (fun e => emit (EvLog WARNING (ErrorParsingItem e))) news_items
  = (Ok tt, news_items ++ candidate_items fields website_name news,
     candidate_warning fields news).
Proof.
  intros Hw. unfold candidate_warning.
  destruct (fields news) as [[[t d] ts] | e] eqn:Hf.
  - rewrite (candidate_items_named fields website_name news t d ts Hw Hf).
    unfold try_except, parse_item, bind, lift, emit, modify, ret. rewrite Hf. cbn.
    destruct (truthy t && truthy d && truthy ts) eqn:Hb; cbn; [| by rewrite app_nil_r].
    apply andb_true_iff in Hb as [Hb Hts]. apply andb_true_iff in Hb as [Ht Hd].
    apply truthy_nonempty in Hw.
    unfold NewsItem_init. cbn [forallb]. rewrite Hw, Ht, Hd, Hts. by cbn.
  - unfold candidate_items, try_except, parse_item, bind, lift, emit, modify, ret.
    rewrite Hf. cbn. by rewrite app_nil_r.
Qed.

Lemma parse_loop_events fields (website_name : string) (found : list Tag) :
  website_name ≠ "" →
  ∀ news_items : list NewsItem,
    for_each found (fun news =>
      try_except (parse_item fields website_name news)
        (fun e => emit (EvLog WARNING (ErrorParsingItem e)))) news_items
    = (Ok tt, news_items ++ flat_map (candidate_items fields website_name) found,
       flat_map (candidate_warning fields) found).
Proof.
  intros Hw. induction found as [| news found IH]; intros news_items.
  - cbn. by rewrite app_nil_r.
  - cbn [for_each flat_map]. unfold bind at 1.
    rewrite (parse_item_events fields website_name news news_items Hw), IH.
    by rewrite <- app_assoc.
Qed.

Lemma parse_document_events (label default : string) candidates fields (html_content : string) :
  default ≠ "" →
  parse_document label default candidates fields html_content []
  = match BeautifulSoup html_content with
    | Raise e => (Ok [], [], [EvLog ERROR (ErrorParsingContent label e)])
    | Ok soup =>
        match candidates soup with
        | Raise e => (Ok [], [], [EvLog ERROR (ErrorParsingContent label e)])
        | Ok found =>
            let items := flat_map (candidate_items fields (get_site_name default soup)) found in
            (Ok items, items, flat_map (candidate_warning fields) found)
        end
    end.
Proof.
  intros Hd.
  unfold parse_document, bind at 1, try_except at 1, bind at 1, lift at 1.
  destruct (BeautifulSoup html_content) as [soup | e]; [| done].
  unfold bind at 1, lift at 1.
  destruct (candidates soup) as [found | e]; [| done].
  rewrite (parse_loop_events fields _ found (get_site_name_nonempty default soup Hd) []).
  cbn. by rewrite !app_nil_r.
Qed.

(** X14.  The log of [parse]: a document that cannot be parsed, or whose
    candidates cannot be selected, gives the empty list and one error
    record with the label of the parser; otherwise the items are what
    the candidates yield, in order, and the log holds one warning for
    each candidate the reading of which raised, in order, and nothing
    else. *)
Theorem parse_log (k : parser_kind) (html_content : string) :
  parser_parse k html_content
  = match BeautifulSoup html_content with
    | Raise e => (Ok [], [EvLog ERROR (ErrorParsingContent (parser_label k) e)])
    | Ok soup =>
        match parser_candidates k soup with
        | Raise e => (Ok [], [EvLog ERROR (ErrorParsingContent (parser_label k) e)])
        | Ok found =>
            (Ok (flat_map (candidate_items (parser_fields k)
                             (get_site_name (parser_default k) soup)) found),
             flat_map (candidate_warning (parser_fields k)) found)
        end
    end.
Proof.
  unfold parser_parse.
  destruct k; cbn [parser_label parser_candidates parser_fields parser_default].
  - unfold Liputan6Parser_parse. rewrite parse_document_events by done.
    destruct (BeautifulSoup html_content) as [soup | e]; [| done].
    by destruct (soup_find_all soup "div" "headline--main__wrapper").
  - unfold BisnisParser_parse. rewrite parse_document_events by done.
    destruct (BeautifulSoup html_content) as [soup | e]; [| done].
    by destruct (soup_find_all soup "li" "big style2").
  - unfold ABCParser_parse. rewrite parse_document_events by done.
    destruct (BeautifulSoup html_content) as [soup | e]; [| done].
    by destruct (soup_select soup abc_selector).
Qed.



End ParserDetails.

(** ** Start of the program *)

Lemma NewsScraping_init_valid (network : nat -> string -> res string) (url : string) (n : Z) :
  valid_config (url, n) →
  ∃ k, create_parser url = Ok k ∧
       NewsScraping_init network url n
       = Ok (mkNewsScraping url n [] false (HTTPClient_default network) k None).
Proof.
  intros [Hk Hn]. cbn in *.
  destruct (create_parser_known url Hk) as [k Hc]. exists k. split; [done |].
  unfold NewsScraping_init. rewrite (bool_decide_eq_false_2 (n <= 0)) by lia.
  assert (truthy url = true) as ->.
  { revert Hk. unfold known_sites. rewrite !elem_of_cons, elem_of_nil.
    intros [-> | [-> | [-> | []]]]; reflexivity. }
  cbn. by rewrite Hc.
Qed.

Lemma NewsScraping_init_invalid (network : nat -> string -> res string) (url : string) (n : Z) :
  ¬ valid_config (url, n) → ∃ e, NewsScraping_init network url n = Raise e.
Proof.
  intros Hv. unfold NewsScraping_init.
  destruct (negb (truthy url) || bool_decide (n <= 0)) eqn:Hb; [eauto |].
  apply orb_false_iff in Hb as [_ Hn]. apply bool_decide_eq_false in Hn.
  destruct (decide (url ∈ known_sites)) as [Hk | Hk].
  - exfalso. apply Hv. split; [done | cbn; lia].
  - rewrite (create_parser_unknown url Hk). eauto.
Qed.

Lemma create_scrapers_spec (network : nat -> string -> res string)
    (configs : list (string * Z)) :
  ∀ scrapers log,
    let r := create_scrapers network configs scrapers log in
    ∃ created,
      r.1 = scrapers ++ created ∧
      (fun p => (news_site p, interval p)) <$> created = filter valid_config configs ∧
      Forall (fresh_scraper network) created ∧
      failures_of r.2
      = failures_of log ++ (fst <$> filter (fun c => ¬ valid_config c) configs).
Proof.
  induction configs as [| [url n] rest IH]; intros scrapers log.
  { exists []. cbn. by rewrite !app_nil_r. }
  cbn [create_scrapers]. cbn zeta.
  destruct (decide (valid_config (url, n))) as [Hv | Hv].
  - destruct (NewsScraping_init_valid network url n Hv) as (k & Hc & ->).
    unfold start_thread. cbn [thread_alive thread].
    destruct (IH (scrapers ++ [set_thread (set_stop_event
                    (mkNewsScraping url n [] false (HTTPClient_default network) k None) false)
                    (Some AtLoopHead)])
                 (log ++ (Logged <$> [EvLog INFO (StartedThread url)])))
      as (created & H1 & H2 & H3 & H4).
    eexists (_ :: created). cbn [news_site] in *. rewrite H1, H4.
    rewrite <- app_assoc. split; [done |].
    rewrite !filter_cons_True by done. rewrite filter_cons_False by (by intros []).
    split; [cbn; by rewrite H2 |]. split; [by constructor |].
    unfold failures_of. rewrite omap_app. cbn. by rewrite app_nil_r.
  - destruct (NewsScraping_init_invalid network url n Hv) as (e & ->).
    destruct (IH scrapers (log ++ [FailedToCreate url e])) as (created & H1 & H2 & H3 & H4).
    exists created. rewrite H1, H4. split; [done |].
    rewrite filter_cons_False by done. rewrite filter_cons_True by done.
    split; [done |]. split; [done |].
    unfold failures_of. rewrite omap_app. cbn. by rewrite <- app_assoc.
Qed.

(** X16.  The start of the program: for any list of configurations, the
    scrapers created are those of the configurations with a known url and
    a positive interval, in order, each started (thread at the head of
    its loop, stop event unset, empty queue, default HTTP client, the
    parser of its url); every other configuration is logged as a failure
    and does not keep the later ones from being created; and
    [main_thread] is entered exactly when some scraper was created. *)
Theorem startup (network : nat -> string -> res string) (configs : list (string * Z)) :
  let r := create_scrapers network configs [] [] in
  (fun p => (news_site p, interval p)) <$> r.1 = filter valid_config configs ∧
  Forall (fresh_scraper network) r.1 ∧
  failures_of r.2 = fst <$> filter (fun c => ¬ valid_config c) configs ∧
  program_start network configs
  = if decide (filter valid_config configs = []) then None else Some (main_thread r.1).
Proof.
  intros r.
  destruct (create_scrapers_spec network configs [] []) as (created & H1 & H2 & H3 & H4).
  fold r in H1, H4. cbn in H1, H4. rewrite H1.
  split; [done |]. split; [done |]. split; [done |].
  unfold program_start. fold r. rewrite H1, <- H2.
  destruct created; by case_decide.
Qed.

(** With the configurations of the source the three scrapers are created. *)
Example startup_configs :
  let r := create_scrapers page_network configs [] [] in
  (fun p => (news_site p, interval p, parser p)) <$> r.1
  = [("https://www.liputan6.com/", 3600, Liputan6Parser);
     ("https://www.bisnis.com/", 1800, BisnisParser);
     ("https://www.abc.net.au/news/indonesian", 900, ABCParser)] ∧
  failures_of r.2 = [].
Proof. vm_compute. done. Qed.

(** A configuration that is refused between two that are accepted. *)
Example startup_skips_bad_config :
  let r := create_scrapers page_network
             [("https://www.bisnis.com/", 1800); ("https://unknown.example/", 60);
              ("https://www.liputan6.com/", 0); ("https://www.liputan6.com/", 5)] [] [] in
  (fun p => (news_site p, interval p)) <$> r.1
  = [("https://www.bisnis.com/", 1800); ("https://www.liputan6.com/", 5)] ∧
  r.2 = [Logged (EvLog INFO (StartedThread "https://www.bisnis.com/"));
         FailedToCreate "https://unknown.example/" (ValueError "Unsupported news site");
         FailedToCreate "https://www.liputan6.com/" (ValueError "Invalid parameters");
         Logged (EvLog INFO (StartedThread "https://www.liputan6.com/"))].
Proof. vm_compute. done. Qed.

(** ** An interrupt of the main thread *)

Section InterruptProperties.
Context {bs4 : BS4}.


End InterruptProperties.

(** ** Instances of the further properties *)


Lemma stop_event_sticky_witness :
  let p := scraper_at page_network "https://www.liputan6.com/" true (AtPush [item1]) in
  let sch := [RunScraper 0; CallStart 0; RunMain; RunScraper 0] in
  ∃ p', news_scrapers (@run stub_bs4 sch (main_thread [p])).1 !! 0%nat = Some p' ∧
        stop_event p' = true.
Proof.
  intros p sch.
  apply (@stop_event_sticky stub_bs4 (main_thread [p]) 0 p sch).
  - reflexivity.
  - reflexivity.
  - vm_compute. repeat constructor.
Defined.


Lemma finally_shuts_down_witness :
  let p := scraper_at page_network "https://www.liputan6.com/" false (AtPush [item1]) in
  let q := mkNewsScraping "https://www.bisnis.com/" 2 [item3] false
             (HTTPClient_default page_network) BisnisParser None in
  let s := mkSystem [p; q] ∅ (AtCleanup 0) in
  ∃ n, (n ≤ 2 * length (news_scrapers s) + 1)%nat ∧
       let r := @run stub_bs4 (replicate n RunMain) s in
       main r.1 = Returned ∧
       news_scrapers r.1 = shut_down <$> news_scrapers s ∧
       Forall shut (news_scrapers r.1) ∧
       news_queue <$> news_scrapers r.1 = news_queue <$> news_scrapers s ∧
       seen_news r.1 = seen_news s ∧
       closes_of (events r.2) = news_site <$> news_scrapers s.
Proof.
  intros p q s. apply (@finally_shuts_down stub_bs4 s). reflexivity.
Defined.

Lemma aggregator_round_witness :
  let q site items := mkNewsScraping site 2 items false
                        (HTTPClient_default page_network) Liputan6Parser None in
  let s := mkSystem [q "https://www.liputan6.com/" [item1; item3];
                     q "https://www.bisnis.com/" [item3]] ∅ AtLoopCheck in
  ∃ n,
    let r := @run stub_bs4 (replicate n RunMain) s in
    main r.1 = AtLoopCheck ∧
    news_scrapers r.1 = (fun p => set_news_queue p []) <$> news_scrapers s ∧
    gets_of (events r.2) = queued (news_scrapers s) ∧
    prints_of (events r.2)
      = first_arrivals_after (elements (seen_news s)) (queued (news_scrapers s)) ∧
    sleeps_of (events r.2) = [1].
Proof.
  intros q s. apply (@aggregator_round stub_bs4 s); reflexivity.
Defined.




(** ** From the scrapers to the output *)

Section EndToEnd.
Context {bs4 : BS4}.


(** X19.  A scraper can be used again after a stop: once the thread of a
    stopped scraper has run to its end, [start_thread] starts a new
    thread at the head of the loop and clears the stop event, and the
    scraper still has its site, its interval, its parser and the items
    that were waiting in its queue. *)
Theorem restart_after_stop (p : NewsScraping) :
  stop_event p = true → thread_alive p = true →
  ∃ n,
    let stopped := (thread_steps n p).1 in
    thread stopped = Some Finished ∧
    start_thread stopped
    = (set_thread (set_stop_event stopped false) (Some AtLoopHead),
       [EvLog INFO (StartedThread (news_site p))]) ∧
    thread_alive (start_thread stopped).1 = true ∧
    stop_event (start_thread stopped).1 = false ∧
    news_queue (start_thread stopped).1 = news_queue p.
Proof.
  intros Hs Ha.
  destruct (stopped_thread_run p Hs Ha) as (n & Hfin & _ & Hq & _).
  exists n. cbn zeta. split; [exact Hfin |].
  assert (news_site (thread_steps n p).1 = news_site p) as Hsite.
  { clear. revert p. induction n as [| n IH]; intros p; [done |].
    cbn [thread_steps]. pose proof (thread_step_frame p) as (_ & Hn & _).
    destruct (thread_step p) as [p1 evs1]. specialize (IH p1).
    destruct (thread_steps n p1) as [p2 evs2]. cbn in *. congruence. }
  unfold start_thread, thread_alive. rewrite Hfin, Hsite. cbn. by rewrite Hq.
Qed.

End EndToEnd.

Lemma restart_after_stop_witness :
  let p := mkNewsScraping "https://www.liputan6.com/" 2 [item1] true
             (HTTPClient_default page_network) Liputan6Parser (Some (AtPush [item3])) in
  ∃ n,
    let stopped := (@thread_steps stub_bs4 n p).1 in
    thread stopped = Some Finished ∧
    start_thread stopped
    = (set_thread (set_stop_event stopped false) (Some AtLoopHead),
       [EvLog INFO (StartedThread (news_site p))]) ∧
    thread_alive (start_thread stopped).1 = true ∧
    stop_event (start_thread stopped).1 = false ∧
    news_queue (start_thread stopped).1 = news_queue p.
Proof.
  intros p. apply (@restart_after_stop stub_bs4 p); reflexivity.
Defined.

(** A scraper that extracts the same items in every cycle: the items are
    printed once, however many cycles have run. *)
Example same_items_every_cycle :
  let p := scraper_at page_network "https://www.liputan6.com/" false AtLoopHead in
  let sch := replicate 16 (RunScraper 0) ++ replicate 8 RunMain in
  let r := @run stub_bs4 sch (main_thread [p]) in
  puts_of (events r.2) = [item1; item3; item1; item3] ∧
  prints_of (events r.2) = [item1; item3].
Proof. vm_compute. done. Qed.
